(** * MCP client: tool registry, connection bookkeeping and chat orchestration

    A shallow embedding of the browser client's two stateful classes,
    [MCPTools] (mcp-tools.js) and [MCPClientApp] (the application class),
    together with the JavaScript built-ins they rely on.

    Conventions of the embedding:
    - JavaScript strings are kept as their UTF-8 byte sequences; the only
      separator the code splits on is the ASCII underscore, so splitting,
      joining and concatenation commute with the encoding.
    - [undefined] is [None]; values that come out of [JSON.parse] are [json].
    - The [Set] of connected servers is only ever used through [add],
      [delete] and [has], so it is a [gset string].
    - Every network request goes through [mcpApi]; the embedding logs each
      request and takes the way it settles as an argument of the operation.
      An asynchronous method is one function from the state at its call to
      the state at its end, except [sendMessage], whose re-entrancy guard
      is the point: it is cut at its first suspension.
    - [localStorage] is kept as plain state components, which hold the
      parsed form of what is stored.  Of the page only what the methods read
      is kept, and of the rendering ([renderToolsList], [formatMessage])
      only whether it returns or raises a [TypeError], which decides what
      its callers do next. *)

From Stdlib Require Import ZArith NArith Ascii String.
From stdpp Require Import base option list gmap strings pretty.

#[local] Set Warnings "-clear-no-such-hyp".

Local Open Scope string_scope.
Local Open Scope list_scope.

(** ** JavaScript built-ins *)

Module JS.

(** *** Strings *)

(** [s.includes(c)] for a one-character needle. *)
Fixpoint includes (c : ascii) (s : string) : bool :=
  match s with
  | EmptyString => false
  | String a r => if Ascii.eqb a c then true else includes c r
  end.

(** [s.split(c)] for a one-character separator: always at least one piece. *)
Fixpoint split (c : ascii) (s : string) : list string :=
  match s with
  | EmptyString => [EmptyString]
  | String a r =>
      if Ascii.eqb a c then EmptyString :: split c r
      else match split c r with
           | p :: ps => String a p :: ps
           | [] => [String a EmptyString]
           end
  end.

(** [parts.join(sep)]. *)
Fixpoint join (sep : string) (parts : list string) : string :=
  match parts with
  | [] => EmptyString
  | [p] => p
  | p :: ps => p +:+ sep +:+ join sep ps
  end.

(** [parts.slice(1)]. *)
Definition slice1 (parts : list string) : list string := tail parts.

(** [parts[0]]; [undefined] never arises for the result of [split]. *)
Definition first (parts : list string) : string := hd EmptyString parts.

(** [hay.endsWith(suffix)], through reversal. *)
Definition endsWith (hay suffix : string) : bool :=
  String.prefix (String.rev suffix) (String.rev hay).

(** Substring test: [hay.includes(needle)]. *)
Fixpoint contains (needle hay : string) : bool :=
  String.prefix needle hay ||
  match hay with
  | EmptyString => false
  | String _ r => contains needle r
  end.

(** The line feed of template literals. *)
Definition LF : string := String (ascii_of_nat 10) EmptyString.

(** [a || b] on strings: the empty string is falsy. *)
Definition or_str (a b : string) : string :=
  match a with EmptyString => b | _ => a end.

(** *** Numbers

    Finite values are kept as exact signed decimals [m * 10^e]; rounding to
    binary64 is not modelled.  Whether a value is [NaN] does not depend on
    the rounding. *)

Inductive number : Type :=
  | NaN
  | Infinity (neg : bool)
  | Dec (neg : bool) (m : N) (e : Z).

Definition number_truthy (n : number) : bool :=
  match n with
  | NaN => false
  | Infinity _ => true
  | Dec _ m _ => negb (N.eqb m 0)
  end.

(** *** Values produced by [JSON.parse]

    Objects are association lists of own properties (first binding wins);
    arrays carry their elements and, because they are objects, the named
    properties assigned to them after parsing. *)

#[local] Set Warnings "-register-all".

Inductive json : Type :=
  | JNull
  | JBool (b : bool)
  | JNum (n : number)
  | JStr (s : string)
  | JObj (props : list (string * json))
  | JArr (items : list json) (named : list (string * json)).

(** [!!v] *)
Definition truthy (v : json) : bool :=
  match v with
  | JNull => false
  | JBool b => b
  | JNum n => number_truthy n
  | JStr EmptyString => false
  | JStr _ => true
  | JObj _ | JArr _ _ => true
  end.

(** [!!v] where [v] may be [undefined]. *)
Definition truthy_opt (v : option json) : bool :=
  match v with Some x => truthy x | None => false end.

(** [typeof v] *)
Definition typeof (v : json) : string :=
  match v with
  | JNull => "object"
  | JBool _ => "boolean"
  | JNum _ => "number"
  | JStr _ => "string"
  | JObj _ | JArr _ _ => "object"
  end.


(** *** Property access on parsed values

    Only own properties are modelled (nothing inherited from
    [Object.prototype] or [Array.prototype]); reads on primitives give
    [undefined]. *)

Fixpoint lookup_prop (k : string) (props : list (string * json)) : option json :=
  match props with
  | [] => None
  | (k', v) :: rest => if String.eqb k' k then Some v else lookup_prop k rest
  end.

(** [props[k] = x] on the own properties: an existing key keeps its place. *)
Fixpoint assign (k : string) (x : json) (props : list (string * json))
  : list (string * json) :=
  match props with
  | [] => [(k, x)]
  | (k', v) :: rest =>
      if String.eqb k' k then (k', x) :: rest else (k', v) :: assign k x rest
  end.

Definition digit_of (a : ascii) : option N :=
  let n := N_of_ascii a in
  if (48 <=? n)%N && (n <=? 57)%N then Some (n - 48)%N else None.

(** Leading decimal digits of [s] folded into [acc], their count, and the
    rest of the string. *)
Fixpoint span_digits (s : string) (acc : N) (count : nat) : N * nat * string :=
  match s with
  | EmptyString => (acc, count, s)
  | String a r =>
      match digit_of a with
      | Some d => span_digits r (acc * 10 + d)%N (S count)
      | None => (acc, count, s)
      end
  end.

(** A canonical array index: ["0"], or digits without a leading zero. *)
Definition array_index (k : string) : option nat :=
  match k with
  | EmptyString => None
  | String a r =>
      match span_digits k 0%N 0 with
      | (n, _, EmptyString) =>
          if Ascii.eqb a "0" && negb (String.eqb r EmptyString) then None
          else Some (N.to_nat n)
      | _ => None
      end
  end.

(** [v[k]] for a [v] that is neither [null] nor [undefined]. *)
Definition getProp (v : json) (k : string) : option json :=
  match v with
  | JObj props => lookup_prop k props
  | JArr items named =>
      match array_index k with
      | Some i => items !! i
      | None =>
          if String.eqb k "length"
          then Some (JNum (Dec false (N.of_nat (length items)) 0))
          else lookup_prop k named
      end
  | _ => None
  end.

(** The functional image of mutating in place the object held in the
    existing property [k] of [v]: that property now holds [x]. *)
Definition update_at (v : json) (k : string) (x : json) : json :=
  match v with
  | JObj props => JObj (assign k x props)
  | JArr items named =>
      match array_index k with
      | Some i => JArr (<[i:=x]> items) named
      | None => JArr items (assign k x named)
      end
  | _ => v
  end.

(** [Object.keys(v).length]; the code asks it of objects and arrays only
    (for a string the count is in bytes here). *)
Definition keys_length (v : json) : nat :=
  match v with
  | JObj props => length (remove_dups (props.*1))
  | JArr items named => length items + length (remove_dups (named.*1))
  | JStr s => String.length s
  | _ => 0
  end.

(** The properties an association list stands for, in the order of their
    creation: the first binding of each key. *)
Fixpoint own_props (props : list (string * json)) : list (string * json) :=
  match props with
  | [] => []
  | (k, v) :: rest => (k, v) :: filter (λ kv, kv.1 ≠ k) (own_props rest)
  end.

(** [Object.values(v)] for a [v] that is neither [null] nor [undefined]: the
    elements of an array come before its named properties, a string gives
    its characters (its bytes here) and the other primitives nothing. *)
Definition values (v : json) : list json :=
  match v with
  | JObj props => (own_props props).*2
  | JArr items named => items ++ (own_props named).*2
  | JStr s => (λ a, JStr (String a EmptyString)) <$> list_ascii_of_string s
  | _ => []
  end.

(** *** Conversions of parsed values

    A parsed object converts to a primitive through the inherited
    [toString], which gives [[object Object]], and a parsed array through
    the inherited [join].  An own property of that name hides the inherited
    method and, coming out of [JSON.parse], is never callable: an own
    [toString] makes the conversion raise a [TypeError], an own [join] makes
    an array convert like an object. *)

(** [String(v)] returns. *)
Fixpoint to_string_returns (v : json) : bool :=
  match v with
  | JObj props =>
      match lookup_prop "toString" props with Some _ => false | None => true end
  | JArr items named =>
      match lookup_prop "toString" named, lookup_prop "join" named with
      | Some _, _ => false
      | None, Some _ => true
      | None, None => forallb to_string_returns items
      end
  | _ => true
  end.

(** [n > 0] *)
Definition number_positive (n : number) : bool :=
  match n with
  | NaN => false
  | Infinity neg => negb neg
  | Dec neg m _ => negb neg && negb (N.eqb m 0)
  end.

(** *** [Number(s)]: the StringToNumber conversion *)

(** Length in bytes of the white space or line terminator character that
    [s] starts with, 0 when it starts with none. *)
Definition ws_prefix (s : string) : nat :=
  match s with
  | EmptyString => 0
  | String a r =>
      let n := nat_of_ascii a in
      if bool_decide (n ∈ [9; 10; 11; 12; 13; 32]) then 1
      else match r with
           | EmptyString => 0
           | String b r' =>
               let m := nat_of_ascii b in
               if bool_decide (n = 194 ∧ m = 160) then 2
               else match r' with
                    | EmptyString => 0
                    | String c _ =>
                        let l := nat_of_ascii c in
                        if bool_decide
                             ((n, m, l) ∈ [(225, 154, 128); (226, 128, 168);
                                           (226, 128, 169); (226, 128, 175);
                                           (226, 129, 159); (227, 128, 128);
                                           (239, 187, 191)])
                           || bool_decide (n = 226 ∧ m = 128)
                              && (128 <=? l)%nat && (l <=? 138)%nat
                        then 3 else 0
                    end
           end
  end.

Fixpoint skip_ws_fuel (fuel : nat) (s : string) : string :=
  match fuel with
  | 0 => s
  | S fuel' =>
      match ws_prefix s with
      | 0 => s
      | n => skip_ws_fuel fuel' (String.substring n (String.length s - n) s)
      end
  end.

Definition skip_ws (s : string) : string := skip_ws_fuel (String.length s) s.

(** Only white space is left. *)
Definition blank (s : string) : bool := String.eqb (skip_ws s) EmptyString.

(** Strip the literal prefix [p] from [s]. *)
Fixpoint strip (p s : string) : option string :=
  match p, s with
  | EmptyString, _ => Some s
  | String a p', String b s' => if Ascii.eqb a b then strip p' s' else None
  | String _ _, EmptyString => None
  end.

Definition radix_digit (radix : N) (a : ascii) : option N :=
  let n := N_of_ascii a in
  let d := if (48 <=? n)%N && (n <=? 57)%N then Some (n - 48)%N
           else if (97 <=? n)%N && (n <=? 102)%N then Some (n - 87)%N
           else if (65 <=? n)%N && (n <=? 70)%N then Some (n - 55)%N
           else None in
  match d with
  | Some x => if (x <? radix)%N then Some x else None
  | None => None
  end.

(** Digits in the given radix up to trailing white space; at least one. *)
Fixpoint radix_digits (radix : N) (s : string) (acc : N) (count : nat) : option N :=
  match s with
  | EmptyString => match count with 0 => None | _ => Some acc end
  | String a r =>
      match radix_digit radix a with
      | Some d => radix_digits radix r (acc * radix + d)%N (S count)
      | None => match count with
                | 0 => None
                | _ => if blank s then Some acc else None
                end
      end
  end.

(** [0x], [0o] and [0b] literals (either case of the letter). *)
Definition non_decimal (s : string) : option (option N) :=
  match s with
  | String "0" (String c r) =>
      if bool_decide (c ∈ ["x"; "X"]%char) then Some (radix_digits 16 r 0 0)
      else if bool_decide (c ∈ ["o"; "O"]%char) then Some (radix_digits 8 r 0 0)
      else if bool_decide (c ∈ ["b"; "B"]%char) then Some (radix_digits 2 r 0 0)
      else None
  | _ => None
  end.

(** An optional sign. *)
Definition sign (s : string) : bool * string :=
  match s with
  | String "+" r => (false, r)
  | String "-" r => (true, r)
  | _ => (false, s)
  end.

(** An optional exponent part: its value and the rest.  An [e] that is not
    followed by digits is left in place. *)
Definition exponent (s : string) : Z * string :=
  match s with
  | String c r =>
      if bool_decide (c ∈ ["e"; "E"]%char) then
        let '(neg, r1) := sign r in
        match span_digits r1 0%N 0 with
        | (_, 0, _) => (0%Z, s)
        | (n, _, r2) => ((if neg then - Z.of_N n else Z.of_N n)%Z, r2)
        end
      else (0%Z, s)
  | EmptyString => (0%Z, s)
  end.

(** A decimal literal without its sign, up to trailing white space. *)
Definition unsigned_decimal (neg : bool) (s : string) : number :=
  match strip "Infinity" s with
  | Some r => if blank r then Infinity neg else NaN
  | None =>
      let '(ip, ni, r1) := span_digits s 0%N 0 in
      let '(m, nf, r2) :=
        match r1 with
        | String "." r => span_digits r ip 0
        | _ => (ip, 0, r1)
        end in
      if (ni + nf =? 0)%nat then NaN
      else
        let '(e, r3) := exponent r2 in
        if blank r3 then Dec neg m (e - Z.of_nat nf) else NaN
  end.

(** [Number(s)] for a string [s]. *)
Definition Number (s : string) : number :=
  let t := skip_ws s in
  if String.eqb t EmptyString then Dec false 0 0
  else match non_decimal t with
       | Some (Some n) => Dec false n 0
       | Some None => NaN
       | None => let '(neg, r) := sign t in unsigned_decimal neg r
       end.


(** [v > 0]; [None] is the [TypeError] of a conversion that finds no
    callable method.  The text of an array with one element is the text of
    that element, the empty string for [null]; with more elements it holds
    a comma and is not a number. *)
Fixpoint positive (v : json) : option bool :=
  match v with
  | JNull => Some false
  | JBool b => Some b
  | JNum n => Some (number_positive n)
  | JStr s => Some (number_positive (Number s))
  | JObj props =>
      match lookup_prop "toString" props with Some _ => None | None => Some false end
  | JArr items named =>
      match lookup_prop "toString" named, lookup_prop "join" named with
      | Some _, _ => None
      | None, Some _ => Some false
      | None, None =>
          match items with
          | [] => Some false
          | [x] =>
              match x with
              | JNull | JBool _ => Some false
              | JObj props =>
                  match lookup_prop "toString" props with
                  | Some _ => None
                  | None => Some false
                  end
              | _ => positive x
              end
          | _ => if forallb to_string_returns items then Some false else None
          end
      end
  end.

(** [list && list.length > 0], where [list] is the value of a property that
    may be missing; [None] is a [TypeError]. *)
Definition has_items (list : option json) : option bool :=
  match list with
  | None => Some false
  | Some l =>
      if negb (truthy l) then Some false
      else match l with
           | JArr items _ => Some (negb (bool_decide (items = [])))
           | JStr _ => Some true
           | JObj props =>
               match lookup_prop "length" props with
               | Some n => positive n
               | None => Some false
               end
           | _ => Some false
           end
  end.

(** [list.forEach(item => ...)] returns, [item_ok] telling whether the
    callback does: only an array has a [forEach], unless an own property of
    that name hides it. *)
Definition forEach_returns (item_ok : json → bool) (list : json) : bool :=
  match list with
  | JArr items named =>
      match lookup_prop "forEach" named with
      | Some _ => false
      | None => forallb item_ok items
      end
  | _ => false
  end.

(** [JSON.parse(JSON.stringify(v))]: what comes back of a value that was
    stored as JSON text.  [NaN] and the infinities are written as [null],
    the negative zero as [0], and of an array only the elements are
    written, not the properties assigned to it. *)
Fixpoint jsonified (v : json) : json :=
  match v with
  | JNum NaN | JNum (Infinity _) => JNull
  | JNum (Dec neg m e) => if N.eqb m 0 then JNum (Dec false 0 0) else v
  | JObj props =>
      JObj (own_props ((λ kv, match kv with (k, x) => (k, jsonified x) end) <$> props))
  | JArr items _ => JArr (jsonified <$> items) []
  | _ => v
  end.

(** The wording of the engine's [TypeError] messages is not modelled: where
    such a message is displayed, this text stands for it. *)
Definition TypeError_message : string := "TypeError".

(** [s.trim()]: white space is dropped at both ends. *)
Definition ws_suffix (s : string) : nat :=
  let len := String.length s in
  let ends_with_ws n :=
    (n <=? len)%nat && (ws_prefix (String.substring (len - n) n s) =? n)%nat in
  if ends_with_ws 1 then 1 else if ends_with_ws 2 then 2
  else if ends_with_ws 3 then 3 else 0.

Fixpoint trim_end_fuel (fuel : nat) (s : string) : string :=
  match fuel with
  | 0 => s
  | S fuel' =>
      match ws_suffix s with
      | 0 => s
      | n => trim_end_fuel fuel' (String.substring 0 (String.length s - n) s)
      end
  end.

Definition trim (s : string) : string :=
  let t := skip_ws s in trim_end_fuel (String.length t) t.

(** *** Promises: how an awaited request settles *)

Inductive settled (A : Type) : Type :=
  | Resolved (a : A)
  | Rejected (message : string).
Arguments Resolved {A} a.
Arguments Rejected {A} message.

(** How a call ends: it returns in a state, or throws in one. *)
Inductive completion (S : Type) : Type :=
  | Done (st : S)
  | Threw (st : S).
Arguments Done {S} st.
Arguments Threw {S} st.

Definition final {S : Type} (c : completion S) : S :=
  match c with Done st | Threw st => st end.

(** The requests sent to the backend through [mcpApi]. *)
Inductive request : Type :=
  | ConnectServer (server : string)
  | ConnectAll
  | CallTool (server tool : string) (args : list (string * json))
  | ProcessWithAI (query : string).

End JS.

(** ** The tool registry, [MCPTools] *)

Module Tools.
Import JS.

(** A form control of a tool panel, as [executeTool] reads it:
    [name], [value], [checked] and [dataset.type]. *)
Record input_el : Type := InputEl {
  el_name : string;
  el_value : string;
  el_checked : bool;
  el_type : option string
}.

(** The panel element of an active tool: whether its result container is
    in the document, and the controls of its [.tool-form], if any. *)
Record panel : Type := Panel {
  resultContainer : bool;
  form : option (list input_el)
}.

(** What a result container shows. *)
Inductive display : Type :=
  | ApiUnavailable
  | ServerNotConnected
  | ExecutingTool
  | ToolSucceeded (result : option json)
  | ToolFailed (error : option json)
  | ErrorText (message : string).

(** [{success, message?}] of [mcp/connect]. *)
Record connect_result : Type := ConnectResult {
  connect_success : bool;
  connect_message : option string
}.

(** [{success, result?, error?}] of [mcp/call_tool]. *)
Record call_result : Type := CallResult {
  call_success : bool;
  call_value : option json;
  call_error : option json
}.

Record state : Type := State {
  config : option json;
  connectedServers : gset string;
  hasApiAccess : bool;
  (** [window.app] with a [showNotification] method *)
  windowApp : bool;
  (** what the text stored under [mcp_client_config] parses to *)
  savedConfig : option json;
  (** the panels in the document, by tool id *)
  document : gmap string panel;
  (** what each result container displays *)
  results : gmap string display;
  (** calls of [window.app.showNotification]: message and severity *)
  notifications : list (string * string);
  (** calls of [alert] *)
  alerts : list string;
  (** requests issued through [mcpApi], oldest first *)
  requests : list request;
  (** [this.toolsList]: whether [init] was given the element of the list *)
  toolsList : bool
}.

Definition set_config (c : option json) (st : state) : state :=
  State c (connectedServers st) (hasApiAccess st) (windowApp st)
        (savedConfig st) (document st) (results st) (notifications st)
        (alerts st) (requests st) (toolsList st).

Definition set_connected (cs : gset string) (st : state) : state :=
  State (config st) cs (hasApiAccess st) (windowApp st)
        (savedConfig st) (document st) (results st) (notifications st)
        (alerts st) (requests st) (toolsList st).

Definition set_saved (c : option json) (st : state) : state :=
  State (config st) (connectedServers st) (hasApiAccess st) (windowApp st)
        c (document st) (results st) (notifications st)
        (alerts st) (requests st) (toolsList st).

Definition show (toolId : string) (d : display) (st : state) : state :=
  State (config st) (connectedServers st) (hasApiAccess st) (windowApp st)
        (savedConfig st) (document st) (<[toolId := d]> (results st))
        (notifications st) (alerts st) (requests st) (toolsList st).

Definition send (r : request) (st : state) : state :=
  State (config st) (connectedServers st) (hasApiAccess st) (windowApp st)
        (savedConfig st) (document st) (results st) (notifications st)
        (alerts st) (requests st ++ [r]) (toolsList st).

Definition alert (msg : string) (st : state) : state :=
  State (config st) (connectedServers st) (hasApiAccess st) (windowApp st)
        (savedConfig st) (document st) (results st) (notifications st)
        (alerts st ++ [msg]) (requests st) (toolsList st).

(** [if (window.app && window.app.showNotification)
       window.app.showNotification(msg, severity)] *)
Definition notify (msg severity : string) (st : state) : state :=
  if windowApp st then
    State (config st) (connectedServers st) (hasApiAccess st) (windowApp st)
          (savedConfig st) (document st) (results st)
          (notifications st ++ [(msg, severity)]) (alerts st) (requests st)
          (toolsList st)
  else st.

Arguments notify : simpl never.

(** The state a [new MCPTools()] starts in. *)
Definition constructor (app : bool) (doc : gmap string panel) : state :=
  State None ∅ false app None doc ∅ [] [] [] false.

(** [init(toolsListElement, toolsPanelElement)]: [toolsListElement] tells
    whether the page has the element, and API access is whatever
    [window.mcpApi] is at that moment.  The fetch that [loadSavedConfig]
    starts settles later. *)
Definition init (toolsListElement mcpApi : bool) (st : state) : state :=
  State (config st) (connectedServers st) mcpApi (windowApp st)
        (savedConfig st) (document st) (results st) (notifications st)
        (alerts st) (requests st) toolsListElement.

(** [validateConfig(config)] *)
Definition validateConfig (config : json) : bool :=
  if negb (truthy config)
     || negb (truthy_opt (getProp config "mcpServers"))
     || negb (String.eqb (from_option typeof "undefined" (getProp config "mcpServers"))
                         "object")
  then false
  else bool_decide (0 < from_option keys_length 0 (getProp config "mcpServers")).

(** [saveConfig()]: what is stored is the JSON text of the configuration. *)
Definition saveConfig (st : state) : state :=
  if truthy_opt (config st) then set_saved (jsonified <$> config st) st else st.

Arguments saveConfig : simpl never.

(** *** Rendering the list of servers

    The elements that [renderToolsList] builds are not kept in the state;
    what the callers see of it is whether it returns or raises a
    [TypeError]. *)

(** The callback of [serverConfig.tools.forEach] returns: the name of the
    tool, and its description when there is one, are written into the
    page as text. *)
Definition renders_tool (tool : json) : bool :=
  match tool with
  | JNull => false
  | JStr _ => true
  | _ =>
      from_option to_string_returns true (getProp tool "name")
      && (if truthy_opt (getProp tool "description")
          then from_option to_string_returns true (getProp tool "description")
          else true)
  end.

(** The callback of [serverConfig.resources.forEach] returns: the name of
    the resource and its [uri], or the resource itself when it has none,
    are written into the page as text. *)
Definition renders_resource (resource : json) : bool :=
  match resource with
  | JNull => false
  | JStr _ => true
  | _ =>
      from_option to_string_returns true (getProp resource "name")
      && to_string_returns (if truthy_opt (getProp resource "uri")
                            then default resource (getProp resource "uri")
                            else resource)
  end.

(** [if (list && list.length > 0) { ... list.forEach(item => ...) ... }] *)
Definition renders_list (item_ok : json → bool) (list : option json) : bool :=
  match has_items list with
  | None => false
  | Some false => true
  | Some true => from_option (forEach_returns item_ok) false list
  end.

(** The body of the loop over the servers returns; reading a property of a
    [null] entry does not. *)
Definition renders_server (serverConfig : json) : bool :=
  match serverConfig with
  | JNull => false
  | _ =>
      renders_list renders_tool (getProp serverConfig "tools")
      && renders_list renders_resource (getProp serverConfig "resources")
  end.

(** [renderToolsList()] returns. *)
Definition renderToolsList (st : state) : bool :=
  if negb (toolsList st) then true
  else match config st with
       | None => true
       | Some cfg =>
           if negb (truthy cfg) then true
           else match getProp cfg "mcpServers" with
                | None | Some JNull => false
                | Some servers => forallb renders_server (values servers)
                end
       end.

(** The [catch] block of [loadConfigFromFile]. *)
Definition load_failed (message : string) (st : state) : bool * state :=
  let text := "Error loading MCP config: " +:+ message in
  (false, if windowApp st then notify text "error" st else alert text st).

(** [loadConfigFromFile(file)]: [parsed] is how [JSON.parse(await
    file.text())] ends.  The result is the returned boolean and the state.
    The list is rendered inside the [try] block, after the configuration
    has been replaced and stored. *)
Definition loadConfigFromFile (parsed : settled json) (st : state) : bool * state :=
  match parsed with
  | Rejected message => load_failed message st
  | Resolved config =>
      if negb (validateConfig config)
      then load_failed "Invalid MCP configuration format" st
      else
        let st1 := set_config (Some config) st in
        let st2 := saveConfig st1 in
        if renderToolsList st2
        then (true, notify "MCP configuration loaded successfully" "success" st2)
        else load_failed TypeError_message st2
  end.

(** The fallback of [loadSavedConfig]: the stored configuration is taken as
    it is.  The rendering that follows is the last statement of a promise
    callback: when it throws, nothing is left to skip. *)
Definition load_stored (st : state) : state :=
  match savedConfig st with
  | Some stored => set_config (Some stored) st
  | None => st
  end.

(** [loadSavedConfig()], once its fetch of [mcp-config.json] has settled:
    a fetched configuration is taken only if it validates, and a failed
    fetch falls back on the stored one.  So does a fetched configuration
    that does not render, which by then has been stored. *)
Definition loadSavedConfig (fetched : settled json) (st : state) : state :=
  match fetched with
  | Resolved config =>
      if validateConfig config then
        let st1 := saveConfig (set_config (Some config) st) in
        if renderToolsList st1 then st1 else load_stored st1
      else st
  | Rejected _ => load_stored st
  end.

(** How the guard [!this.config || !this.config.mcpServers[serverName]]
    ends: it holds, it raises a [TypeError] because [mcpServers] is
    [undefined] or [null], or it finds the servers and a truthy entry. *)
Inductive found : Type :=
  | NoEntry
  | TypeError
  | Entry (config servers entry : json).

Definition serverEntry (st : state) (serverName : string) : found :=
  match config st with
  | None => NoEntry
  | Some cfg =>
      if negb (truthy cfg) then NoEntry
      else match getProp cfg "mcpServers" with
           | None | Some JNull => TypeError
           | Some servers =>
               match getProp servers serverName with
               | Some e => if truthy e then Entry cfg servers e else NoEntry
               | None => NoEntry
               end
           end
  end.

(** [entry.disabled = b]; [None] is the [TypeError] of assigning to a
    property of a primitive in strict code. *)
Definition set_disabled (entry : json) (b : bool) : option json :=
  match entry with
  | JObj props => Some (JObj (assign "disabled" (JBool b) props))
  | JArr items named => Some (JArr items (assign "disabled" (JBool b) named))
  | _ => None
  end.

(** The rendering that ends the [try] block of [toggleServerConnection],
    with the [catch] block that takes over when it throws. *)
Definition rerender (connect : bool) (st : state) : state :=
  if renderToolsList st then st
  else notify ("Error " +:+ (if connect then "connecting to" else "disconnecting from")
               +:+ " server: " +:+ TypeError_message) "error" st.

(** [toggleServerConnection(serverName, connect)]; [remote] is how the
    backend settles the connect request, if one is sent. *)
Definition toggleServerConnection (serverName : string) (connect : bool)
    (remote : settled connect_result) (st : state) : completion state :=
  if negb (hasApiAccess st) then Done (notify "API access not available" "error" st)
  else match serverEntry st serverName with
       | NoEntry => Done st
       | TypeError => Threw st
       | Entry _ _ _ =>
           if connect then
             let st1 := send (ConnectServer serverName) st in
             match remote with
             | Resolved result =>
                 if connect_success result then
                   Done (rerender connect
                           (notify ("Connected to " +:+ serverName) "success"
                              (set_connected ({[serverName]} ∪ connectedServers st1) st1)))
                 else
                   Done (rerender connect
                           (notify ("Failed to connect to " +:+ serverName +:+ ": "
                                      +:+ from_option id "undefined" (connect_message result))
                                   "error" st1))
             | Rejected message =>
                 Done (notify ("Error connecting to server: " +:+ message) "error" st1)
             end
           else
             Done (rerender connect
                     (notify ("Disconnected from " +:+ serverName) "info"
                        (set_connected (connectedServers st ∖ {[serverName]}) st)))
       end.

(** [toggleServerStatus(serverName)].  The disconnect it triggers is not
    awaited; that call has no suspension point on the disconnect path, so
    it has run to its end when the next statement starts.  The list is
    rendered outside any [try] block, after the flag has been changed and
    stored and the server disconnected. *)
Definition toggleServerStatus (serverName : string) (st : state) : completion state :=
  match serverEntry st serverName with
  | NoEntry => Done st
  | TypeError => Threw st
  | Entry cfg servers e =>
      match set_disabled e (negb (truthy_opt (getProp e "disabled"))) with
      | None => Threw st
      | Some e' =>
          let cfg' := update_at cfg "mcpServers" (update_at servers serverName e') in
          let st1 := saveConfig (set_config (Some cfg') st) in
          let disabled := truthy_opt (getProp e' "disabled") in
          let st2 :=
            if disabled && bool_decide (serverName ∈ connectedServers st1)
            then final (toggleServerConnection serverName false
                          (Rejected EmptyString) st1)
            else st1 in
          if renderToolsList st2
          then Done (notify ("Server " +:+ serverName +:+
                               (if disabled then " disabled" else " enabled"))
                            "info" st2)
          else Threw st2
      end
  end.

(** [isServerConnected(serverName)] *)
Definition isServerConnected (serverName : string) (st : state) : bool :=
  bool_decide (serverName ∈ connectedServers st).

Section ExecuteTool.

(** [JSON.parse], [None] when it throws. *)
Variable JSON_parse : string -> option json.

(** The conversion of one control's value by its [dataset.type];
    [inl] carries the message of the error thrown. *)
Definition convert (input : input_el) : string + json :=
  let type := el_type input in
  if bool_decide (type = Some "boolean") then inr (JBool (el_checked input))
  else if bool_decide (type = Some "number") || bool_decide (type = Some "integer")
  then inr (JNum (Number (el_value input)))
  else if bool_decide (type = Some "object") || bool_decide (type = Some "array")
  then match JSON_parse (el_value input) with
       | Some v => inr v
       | None => inl ("Invalid JSON in " +:+ el_name input)
       end
  else inr (JStr (el_value input)).

(** The [forEach] over the controls, filling [inputs]. *)
Fixpoint collect (inputElements : list input_el) (inputs : list (string * json))
  : string + list (string * json) :=
  match inputElements with
  | [] => inr inputs
  | input :: rest =>
      if String.eqb (el_name input) EmptyString || String.eqb (el_name input) "submit"
      then collect rest inputs
      else match convert input with
           | inl message => inl message
           | inr value => collect rest (assign (el_name input) value inputs)
           end
  end.

(** [executeTool(toolId, serverName, toolName)]; [remote] is how the
    backend settles the tool call, if one is sent. *)
Definition executeTool (toolId serverName toolName : string)
    (remote : settled call_result) (st : state) : completion state :=
  match document st !! toolId with
  | None => Done st
  | Some toolInterface =>
      if negb (resultContainer toolInterface) then Done st
      else if negb (hasApiAccess st) then Done (show toolId ApiUnavailable st)
      else if negb (bool_decide (serverName ∈ connectedServers st))
      then Done (show toolId ServerNotConnected st)
      else
        let st1 := show toolId ExecutingTool st in
        match form toolInterface with
        | None => Threw st1
        | Some inputElements =>
            match collect inputElements [] with
            | inl message => Done (show toolId (ErrorText message) st1)
            | inr inputs =>
                let st2 := send (CallTool serverName toolName inputs) st1 in
                match remote with
                | Resolved result =>
                    if call_success result
                    then Done (show toolId (ToolSucceeded (call_value result)) st2)
                    else Done (show toolId
                                 (ToolFailed
                                    (if truthy_opt (call_error result)
                                     then call_error result
                                     else Some (JStr "Unknown error")))
                                 st2)
                | Rejected message => Done (show toolId (ErrorText message) st2)
                end
            end
        end
  end.

End ExecuteTool.

(** A connected registry with one panel whose form has a single field,
    [count], declared [integer] and holding the given text. *)
Definition integer_panel_state (value : string) : state :=
  State (Some (JObj [("mcpServers", JObj [("fs", JObj [])])]))
        {["fs"]} true false None
        {["panel" := Panel true (Some [InputEl "count" value false (Some "integer")])]}
        ∅ [] [] [] true.

(** The double quote of template literals. *)
Definition QUOTE : string := String (ascii_of_nat 34) EmptyString.

(** How the opening block of [activateTool] ends: the panel can be built,
    the call has returned [null], or it has thrown. *)
Inductive activation : Type :=
  | Proceeds (st : state)
  | Refused (st : state)
  | Raised (st : state).

(** [this.config.mcpServers[serverName].disabled], read without any guard:
    [None] is the [TypeError] of reading a property of [undefined] or
    [null]. *)
Definition disabledFlag (st : state) (serverName : string) : option bool :=
  match config st with
  | None | Some JNull => None
  | Some cfg =>
      match getProp cfg "mcpServers" with
      | None | Some JNull => None
      | Some servers =>
          match getProp servers serverName with
          | None | Some JNull => None
          | Some e => Some (truthy_opt (getProp e "disabled"))
          end
      end
  end.

(** [activateTool(serverName, toolName)] up to the point where the panel is
    built: the check of the tools panel and of the connection, with one
    connect attempt for a server that is enabled and not connected.
    [toolsPanel] tells whether the module was given a tools panel; [remote]
    is how the backend settles the connect request, if one is sent. *)
Definition activateTool_guard (toolsPanel : bool) (serverName : string)
    (remote : settled connect_result) (st : state) : activation :=
  if negb toolsPanel then Refused st
  else if negb (bool_decide (serverName ∈ connectedServers st)) then
    match disabledFlag st serverName with
    | None => Raised st
    | Some false =>
        match toggleServerConnection serverName true remote st with
        | Threw st1 => Raised st1
        | Done st1 =>
            if negb (bool_decide (serverName ∈ connectedServers st1))
            then Refused (notify ("Failed to connect to server " +:+ serverName)
                            "error" st1)
            else Proceeds st1
        end
    | Some true =>
        Refused (notify ("Server " +:+ QUOTE +:+ serverName +:+ QUOTE
                         +:+ " is disabled. Please enable it first.") "warning" st)
    end
  else Proceeds st.

End Tools.

(** ** The application class, [MCPClientApp] *)

Module App.
Import JS.

(** One step of an orchestration reply, [{type, content?, tool?, args?}].
    The reply is taken in the shape the backend gives it: [steps], when
    present, is an array of objects whose [type] is a string and whose
    [content] and [tool] are strings or missing. *)
Record step : Type := Step {
  type : string;
  content : option string;
  tool : option string;
  args : option json
}.

(** The reply of [mcpApi.processWithAI]: [{response?, steps?}]. *)
Record ai_result : Type := AiResult {
  response : option string;
  steps : option (list step)
}.

(** An element of a turn's [usedTools]. *)
Record used_tool : Type := UsedTool {
  name : string;
  server : string;
  tool_args : option json
}.

(** String interpolation of a possibly missing string. *)
Definition to_text (s : option string) : string :=
  match s with Some x => x | None => "undefined" end.

(** The string operand of [x || fallback]: a missing [x] is as falsy as the
    empty string. *)
Definition to_text_or_empty (s : option string) : string :=
  match s with Some x => x | None => EmptyString end.

(** [usedTools.some(tool => tool.name === id)] *)
Definition some_named (id : string) (usedTools : list used_tool) : bool :=
  existsb (fun t => String.eqb (name t) id) usedTools.

(** The server and tool name read off a tool identifier: when the
    identifier includes an underscore it is split on underscores, the first
    piece is the server and the remaining pieces, joined again, the tool. *)
Definition resolve (id : string) : string * string :=
  if includes "_" id then
    let parts := split "_" id in
    (first parts, join "_" (slice1 parts))
  else (EmptyString, id).

(** The body of the loop over [result.steps]: the accumulator is
    [(formattedResponse, usedTools)]; [None] is the [TypeError] raised by
    [step.tool.includes] when a tool call carries no tool. *)
Definition process_step (acc : string * list used_tool) (s : step)
  : option (string * list used_tool) :=
  let '(formattedResponse, usedTools) := acc in
  if String.eqb (type s) "response" then
    Some (formattedResponse +:+ to_text (content s), usedTools)
  else if String.eqb (type s) "tool_call" then
    match tool s with
    | None => None
    | Some id =>
        let usedTools' :=
          if negb (some_named id usedTools) then
            let '(serverName, toolName) := resolve id in
            usedTools ++ [UsedTool toolName serverName (args s)]
          else usedTools in
        Some (formattedResponse +:+ LF +:+ LF +:+ "[使用工具: " +:+ id +:+ "]" +:+ LF,
              usedTools')
    end
  else if String.eqb (type s) "tool_result" then
    Some (formattedResponse +:+ LF +:+ "结果: " +:+ to_text (content s) +:+ LF +:+ LF,
          usedTools)
  else Some acc.

Fixpoint process_steps (acc : string * list used_tool) (ss : list step)
  : option (string * list used_tool) :=
  match ss with
  | [] => Some acc
  | s :: rest =>
      match process_step acc s with
      | None => None
      | Some acc' => process_steps acc' rest
      end
  end.

(** [processAiWithToolsResponse(result)]: the pair
    [{processedResponse, usedTools}], or [None] when the call throws. *)
Definition processAiWithToolsResponse (result : option ai_result)
  : option (string * list used_tool) :=
  match result with
  | None => None
  | Some r =>
      match steps r with
      | None => Some (or_str (to_text_or_empty (response r)) "No response received", [])
      | Some ss =>
          match process_steps (EmptyString, []) ss with
          | None => None
          | Some (formattedResponse, usedTools) =>
              Some (or_str formattedResponse
                      (or_str (to_text_or_empty (response r)) "No response received"),
                    usedTools)
          end
      end
  end.


(** *** State *)

(** An entry of the transcript. *)
Record message : Type := Message {
  role : string;
  text : string;
  usedTools : list used_tool;
  timestamp : string
}.

(** [{success, message, servers}] of [mcp/connect-all]; [servers] is [None]
    when the field is missing or not an array. *)
Record connect_all_result : Type := ConnectAllResult {
  all_success : bool;
  all_message : string;
  all_servers : option (list string)
}.

Record state : Type := State {
  chatHistory : list message;
  currentProvider : string;
  currentModel : string;
  isProcessing : bool;
  (** [elements.userInput]: its [value], [None] when the element is null *)
  userInput : option string;
  (** [elements.sendButton]: its [disabled] flag *)
  sendButton : option bool;
  (** [elements.processingIndicator]: whether it is displayed *)
  processingIndicator : option bool;
  (** [elements.chatContainer]: role and content of the messages rendered *)
  chatContainer : option (list (string * string));
  (** what the text stored under [mcp_client_chat_history] parses to; the
      entries hold strings and the arguments of the reply's tool calls,
      which come out of JSON and are stored as they are *)
  savedHistory : option (list message);
  (** the API keys, by provider: [mcpApi.apiKeys], or the stored keys when
      the API client is missing *)
  apiKeys : gmap string string;
  (** calls of [showNotification]: message and severity *)
  notifications : list (string * string);
  (** requests issued through [mcpApi], oldest first *)
  requests : list request;
  (** whether [window.mcpApi] is there *)
  mcpApi : bool;
  (** [window.mcpTools] *)
  mcpTools : option Tools.state
}.

Definition showNotification (msg severity : string) (st : state) : state :=
  State (chatHistory st) (currentProvider st) (currentModel st) (isProcessing st)
        (userInput st) (sendButton st) (processingIndicator st) (chatContainer st)
        (savedHistory st) (apiKeys st) (notifications st ++ [(msg, severity)])
        (requests st) (mcpApi st) (mcpTools st).

Definition send (r : request) (st : state) : state :=
  State (chatHistory st) (currentProvider st) (currentModel st) (isProcessing st)
        (userInput st) (sendButton st) (processingIndicator st) (chatContainer st)
        (savedHistory st) (apiKeys st) (notifications st)
        (requests st ++ [r]) (mcpApi st) (mcpTools st).

Definition set_mcpTools (t : option Tools.state) (st : state) : state :=
  State (chatHistory st) (currentProvider st) (currentModel st) (isProcessing st)
        (userInput st) (sendButton st) (processingIndicator st) (chatContainer st)
        (savedHistory st) (apiKeys st) (notifications st)
        (requests st) (mcpApi st) t.

Definition set_chatHistory (h : list message) (st : state) : state :=
  State h (currentProvider st) (currentModel st) (isProcessing st)
        (userInput st) (sendButton st) (processingIndicator st) (chatContainer st)
        (savedHistory st) (apiKeys st) (notifications st)
        (requests st) (mcpApi st) (mcpTools st).

Definition set_chatContainer (c : option (list (string * string))) (st : state) : state :=
  State (chatHistory st) (currentProvider st) (currentModel st) (isProcessing st)
        (userInput st) (sendButton st) (processingIndicator st) c
        (savedHistory st) (apiKeys st) (notifications st)
        (requests st) (mcpApi st) (mcpTools st).

(** The flag and the two widgets that follow it: the send button is
    disabled and the indicator displayed exactly while [b] holds. *)
Definition set_processing (b : bool) (st : state) : state :=
  State (chatHistory st) (currentProvider st) (currentModel st) b
        (userInput st) ((λ _, b) <$> sendButton st)
        ((λ _, b) <$> processingIndicator st) (chatContainer st)
        (savedHistory st) (apiKeys st) (notifications st)
        (requests st) (mcpApi st) (mcpTools st).

Definition set_userInput (v : string) (st : state) : state :=
  State (chatHistory st) (currentProvider st) (currentModel st) (isProcessing st)
        ((λ _, v) <$> userInput st) (sendButton st)
        (processingIndicator st) (chatContainer st)
        (savedHistory st) (apiKeys st) (notifications st)
        (requests st) (mcpApi st) (mcpTools st).

Definition set_selection (provider model : string) (st : state) : state :=
  State (chatHistory st) provider model (isProcessing st)
        (userInput st) (sendButton st) (processingIndicator st) (chatContainer st)
        (savedHistory st) (apiKeys st) (notifications st)
        (requests st) (mcpApi st) (mcpTools st).

Definition set_apiKeys (keys : gmap string string) (st : state) : state :=
  State (chatHistory st) (currentProvider st) (currentModel st) (isProcessing st)
        (userInput st) (sendButton st) (processingIndicator st) (chatContainer st)
        (savedHistory st) keys (notifications st)
        (requests st) (mcpApi st) (mcpTools st).

(** The part of the state that only [sendMessage] and the initialisation
    decide: the processing flag, which widgets exist, and whether the API
    client is there. *)
Definition core (st : state) : bool * bool * bool * bool :=
  (isProcessing st, bool_decide (is_Some (userInput st)),
   bool_decide (is_Some (sendButton st)), mcpApi st).

(** The flag with the two widgets that show it. *)
Definition widgets (st : state) : bool * option bool * option bool :=
  (isProcessing st, sendButton st, processingIndicator st).

(** [saveChatHistory()] *)
Definition saveChatHistory (st : state) : state :=
  State (chatHistory st) (currentProvider st) (currentModel st) (isProcessing st)
        (userInput st) (sendButton st) (processingIndicator st) (chatContainer st)
        (Some (chatHistory st)) (apiKeys st) (notifications st)
        (requests st) (mcpApi st) (mcpTools st).

(** *** Connecting to every enabled server *)

(** The [forEach] that adds the reported servers to [connectedServers]. *)
Definition add_servers (servers : list string) (connected : gset string) : gset string :=
  foldl (fun acc serverName => {[serverName]} ∪ acc) connected servers.

(** [connectToMcpServers()]; [remote] is how the connect-all request
    settles. *)
Definition connectToMcpServers (remote : settled connect_all_result) (st : state) : state :=
  if negb (mcpApi st) then
    showNotification "API client not available. Cannot connect to MCP servers." "warning" st
  else
    let st1 := send ConnectAll (showNotification "Connecting to MCP servers..." "info" st) in
    match remote with
    | Resolved result =>
        if all_success result then
          let st2 := showNotification (all_message result) "success" st1 in
          let st3 :=
            match mcpTools st2, all_servers result with
            | Some tools, Some servers =>
                set_mcpTools
                  (Some (Tools.set_connected
                           (add_servers servers (Tools.connectedServers tools)) tools))
                  st2
            | _, _ => st2
            end in
          if from_option Tools.renderToolsList true (mcpTools st3) then st3
          else showNotification ("Error connecting to MCP servers: " +:+ TypeError_message)
                 "error" st3
        else showNotification (all_message result) "warning" st1
    | Rejected message =>
        showNotification ("Error connecting to MCP servers: " +:+ message) "error" st1
    end.

(** *** The transcript *)

(** The callback of [server.tools.forEach] in [formatMessage] gives a tool
    name that the highlighting can use: a string.  Reading the name of a
    [null] tool raises a [TypeError], and so does, later, the escaping of a
    name that is not a string. *)
Definition highlights_tool (tool : json) : bool :=
  match tool with
  | JNull => false
  | JStr _ => true
  | _ => match getProp tool "name" with Some (JStr _) => true | _ => false end
  end.

(** The body of the loop over the servers in [formatMessage] returns with
    names that can be highlighted. *)
Definition highlights_server (server : json) : bool :=
  match server with
  | JNull => false
  | _ =>
      match getProp server "tools" with
      | Some tools =>
          if truthy tools then forEach_returns highlights_tool tools else true
      | None => true
      end
  end.

(** [formatMessage(message)] returns, for a string [message].  The markup
    is not kept in the state; whether the call returns or raises a
    [TypeError] is decided by the configuration of the registry alone, whose
    tool names are highlighted in the message. *)
Definition formatMessage (st : state) : bool :=
  match mcpTools st with
  | None => true
  | Some tools =>
      match Tools.config tools with
      | None => true
      | Some cfg =>
          if truthy cfg then
            match getProp cfg "mcpServers" with
            | Some servers =>
                if truthy servers then forallb highlights_server (values servers)
                else true
            | None => true
            end
          else true
      end
  end.

(** [addMessageToChat(role, content, usedTools = [])]; [now] is the reading
    of the clock that stamps the entry.  The content is formatted before
    anything is added to the page or to the history. *)
Definition addMessageToChat (role content : string) (usedTools : list used_tool)
    (now : string) (st : state) : completion state :=
  match chatContainer st with
  | None => Done st
  | Some rendered =>
      if formatMessage st then
        Done (set_chatHistory (chatHistory st ++ [Message role content usedTools now])
                (set_chatContainer (Some (rendered ++ [(role, content)])) st))
      else Threw st
  end.

(** [array.forEach(callback)] when the callback may grow the array it runs
    over: the length is read once, before the first call, and the element at
    each index is read when its turn comes.  A callback that throws ends
    the loop. *)
Fixpoint forEach_replay (remaining k : nat) (nows : nat -> string) (st : state)
  : completion state :=
  match remaining with
  | 0 => Done st
  | S remaining' =>
      match chatHistory st !! k with
      | Some m =>
          match addMessageToChat (role m) (text m) [] (nows k) st with
          | Done st' => forEach_replay remaining' (S k) nows st'
          | Threw st' => Threw st'
          end
      | None => forEach_replay remaining' (S k) nows st
      end
  end.

(** [loadChatHistory()]; [nows k] is the clock reading during the replay of
    the entry at index [k].  The replay runs in a [try] block whose [catch]
    only logs. *)
Definition loadChatHistory (nows : nat -> string) (st : state) : state :=
  match chatContainer st with
  | None => st
  | Some _ =>
      match savedHistory st with
      | None => st
      | Some saved =>
          let st1 := set_chatHistory saved st in
          final (forEach_replay (length (chatHistory st1)) 0 nows st1)
      end
  end.

(** [clearChat()]; [confirmed] is the answer to the confirmation dialog. *)
Definition clearChat (confirmed : bool) (st : state) : state :=
  match chatContainer st with
  | None => st
  | Some _ =>
      if confirmed
      then saveChatHistory (set_chatHistory [] (set_chatContainer (Some []) st))
      else st
  end.

(** *** One turn *)

Definition QUOTE : string := String (ascii_of_nat 34) EmptyString.

(** [sendMessage()] up to its first suspension point.  The second component
    is the query of the turn that was started, [None] when the call returned
    without starting one, or threw: the user's message is added before the
    [try] block, so that a formatting error leaves the flag set. *)
Definition sendMessage (now : string) (st : state) : state * option string :=
  match userInput st, sendButton st with
  | Some value, Some _ =>
      if isProcessing st then
        (showNotification "Please wait for the current message to finish processing."
           "warning" st, None)
      else
        let message := trim value in
        if String.eqb message EmptyString then (st, None)
        else if String.eqb (currentProvider st) EmptyString
                || String.eqb (currentModel st) EmptyString
        then (showNotification "Please select a provider and model first." "error" st, None)
        else if negb (String.eqb (currentProvider st) "ollama")
                && String.eqb (default EmptyString (apiKeys st !! currentProvider st))
                              EmptyString
        then (showNotification "Please enter an API key for the selected provider."
                "error" st, None)
        else
          let st1 := set_userInput EmptyString (set_processing true st) in
          match addMessageToChat "user" message [] now st1 with
          | Done st2 => (if mcpApi st2 then send ConnectAll st2 else st2, Some message)
          | Threw st2 => (st2, None)
          end
  | _, _ => (st, None)
  end.

(** The [catch] and [finally] blocks of [sendMessage].  When the error
    message cannot be added to the chat, the [catch] block is left at once
    for the [finally] block. *)
Definition turn_failed (error now : string) (st : state) : state :=
  match addMessageToChat "ai" ("Error: " +:+ error) [] now st with
  | Done st1 => showNotification ("Error: " +:+ error) "error" (saveChatHistory st1)
  | Threw st1 => st1
  end.

Definition turn_finally (st : state) : state := set_processing false st.

(** The end of the [try] block of [sendMessage]: the answer is added to
    the chat and the history stored. *)
Definition turn_answered (content : string) (usedTools : list used_tool)
    (now : string) (st : state) : state :=
  match addMessageToChat "ai" content usedTools now st with
  | Done st1 => saveChatHistory st1
  | Threw st1 => turn_failed TypeError_message now st1
  end.

(** The rest of [sendMessage], from its first suspension point on, for the
    turn whose query is [message]: [connected] and [ai] are how the
    connect-all and the orchestration requests settle.  The wording of the
    engine's [TypeError] is not modelled. *)
Definition sendMessage_resume (message : string)
    (connected : settled connect_all_result) (ai : settled (option ai_result))
    (now : string) (st : state) : state :=
  turn_finally
    (if mcpApi st then
       match connected with
       | Rejected error => turn_failed error now st
       | Resolved _ =>
           let st1 := send (ProcessWithAI message) st in
           match ai with
           | Rejected error => turn_failed error now st1
           | Resolved result =>
               match processAiWithToolsResponse result with
               | None => turn_failed "TypeError" now st1
               | Some (processedResponse, usedTools) =>
                   turn_answered processedResponse usedTools now st1
               end
           end
       end
     else
       turn_answered
         ("This is a simulated response to: " +:+ QUOTE +:+ message +:+ QUOTE
          +:+ LF +:+ LF +:+ "In a real implementation, this would be a response from the "
          +:+ currentProvider st +:+ " API using the " +:+ currentModel st
          +:+ " model.")
         [] now st).

(** *** Runs of the application

    The state together with the query of the turn in flight, if any. *)
Record running : Type := Running {
  app : state;
  pending : option string
}.

(** The elements found in the page by [getElements()]. *)
Record page : Type := Page {
  page_userInput : bool;
  page_sendButton : bool;
  page_processingIndicator : bool;
  page_chatContainer : bool;
  page_toolsList : bool
}.

(** [new MCPClientApp()] followed by the first steps of [init()]:
    [getElements()] and the initialisation of [mcpTools]. *)
Definition start (dom : page) (keys : gmap string string)
    (stored : option (list message)) (api : bool) (tools : option Tools.state) : running :=
  Running
    (State [] "openai" EmptyString false
       (if page_userInput dom then Some EmptyString else None)
       (if page_sendButton dom then Some false else None)
       (if page_processingIndicator dom then Some false else None)
       (if page_chatContainer dom then Some [] else None)
       stored keys [] [] api (Tools.init (page_toolsList dom) api <$> tools))
    None.

Inductive event : Type :=
  | Typed (value : string)
  | Selected (provider model : string)
  | KeySaved (provider key : string)
  | SendClicked (now : string)
  | TurnSettled (connected : settled connect_all_result)
                (ai : settled (option ai_result)) (now : string)
  | ConnectAllSettled (remote : settled connect_all_result)
  | HistoryLoaded (nows : nat -> string)
  | ChatCleared (confirmed : bool)
  | ConfigLoaded (parsed : settled json)
  | SavedConfigLoaded (fetched : settled json)
  | StatusToggled (serverName : string)
  | ConnectionToggled (serverName : string) (connect : bool)
                      (remote : settled Tools.connect_result).

Definition on_tools (f : Tools.state -> Tools.state) (r : running) : running :=
  Running (set_mcpTools (f <$> mcpTools (app r)) (app r)) (pending r).

Definition react (r : running) (e : event) : running :=
  match e with
  | Typed value => Running (set_userInput value (app r)) (pending r)
  | Selected provider model => Running (set_selection provider model (app r)) (pending r)
  | KeySaved provider key =>
      Running (set_apiKeys (<[provider := key]> (apiKeys (app r))) (app r)) (pending r)
  | SendClicked now =>
      match sendMessage now (app r) with
      | (st, Some query) => Running st (Some query)
      | (st, None) => Running st (pending r)
      end
  | TurnSettled connected ai now =>
      match pending r with
      | Some query => Running (sendMessage_resume query connected ai now (app r)) None
      | None => r
      end
  | ConnectAllSettled remote => Running (connectToMcpServers remote (app r)) (pending r)
  | HistoryLoaded nows => Running (loadChatHistory nows (app r)) (pending r)
  | ChatCleared confirmed => Running (clearChat confirmed (app r)) (pending r)
  | ConfigLoaded parsed => on_tools (fun t => (Tools.loadConfigFromFile parsed t).2) r
  | SavedConfigLoaded fetched => on_tools (Tools.loadSavedConfig fetched) r
  | StatusToggled serverName =>
      on_tools (fun t => final (Tools.toggleServerStatus serverName t)) r
  | ConnectionToggled serverName connect remote =>
      on_tools (fun t => final (Tools.toggleServerConnection serverName connect remote t)) r
  end.

(** The states the application can be in. *)
Inductive reachable : running -> Prop :=
  | reachable_start dom keys stored api tools :
      tools = None ∨ (∃ a d, tools = Some (Tools.constructor a d)) ->
      reachable (start dom keys stored api tools)
  | reachable_react r e : reachable r -> reachable (react r e).

(** [handleConfigFile(event)]: [file] is how the text of the chosen file
    parses, [None] when the event carries no file; [remote] is how the
    connect-all request settles, if one is sent. *)
Definition handleConfigFile (file : option (settled json))
    (remote : settled connect_all_result) (st : state) : state :=
  match file, mcpTools st with
  | Some parsed, Some tools =>
      let st1 := set_mcpTools (Some (Tools.loadConfigFromFile parsed tools).2) st in
      if (Tools.loadConfigFromFile parsed tools).1
      then connectToMcpServers remote
             (showNotification "MCP configuration loaded successfully!" "success" st1)
      else st1
  | _, _ => st
  end.

End App.

(** ** The backend client, [MCPClientAPI] (api.js) *)

Module Api.
Import JS.

(** What [fetch] resolves with, as [request] reads it: [ok], [status],
    [statusText] and how [response.json()] settles. *)
Record response : Type := Response {
  ok : bool;
  status : nat;
  statusText : string;
  body : settled json
}.

(** The message of an [Error]: a string, or the string conversion of a
    value that is not a string. *)
Inductive message : Type :=
  | Text (s : string)
  | Stringified (v : json).

Inductive error : Type :=
  | Error (m : message)
  | TypeError.

Inductive outcome (A : Type) : Type :=
  | Returned (a : A)
  | Failed (e : error).
Arguments Returned {A} a.
Arguments Failed {A} e.

(** [request(endpoint, options)], given how the fetch settles. *)
Definition request (fetched : settled response) : outcome json :=
  match fetched with
  | Rejected m => Failed (Error (Text m))
  | Resolved r =>
      match body r with
      | Rejected m => Failed (Error (Text m))
      | Resolved data =>
          if negb (ok r) then
            let fallback :=
              Failed (Error (Text ("Error: " +:+ pretty (status r) +:+ " "
                                   +:+ statusText r))) in
            match data with
            | JNull => Failed TypeError
            | _ =>
                match getProp data "error" with
                | Some v =>
                    if truthy v
                    then Failed (Error (match v with
                                        | JStr s => Text s
                                        | _ => Stringified v
                                        end))
                    else fallback
                | None => fallback
                end
            end
          else Returned data
      end
  end.

(** The item stored under [mcp_client_api_keys]: absent, a text that
    [JSON.parse] rejects, or the JSON text of an object of strings, which is
    what [saveApiKey] writes.  The key table and the model cache are plain
    objects used as maps from provider identifiers; as for [getProp], only
    their own properties are modelled. *)
Inductive stored : Type :=
  | NoItem
  | Unparsable
  | Keys (keys : gmap string string).

(** The requests that involve keys and models. *)
Inductive call : Type :=
  | GetProviders
  | GetModels (providerId apiKey : string)
  | TestKey (providerId apiKey : string).

Record state : Type := State {
  apiKeys : gmap string string;
  modelsCache : gmap string json;
  storedKeys : stored;
  calls : list call
}.

(** [loadApiKeys()] *)
Definition loadApiKeys (item : stored) : gmap string string :=
  match item with
  | Keys keys => keys
  | NoItem | Unparsable => ∅
  end.

(** [new MCPClientAPI()] *)
Definition constructor (item : stored) : state :=
  State (loadApiKeys item) ∅ item [].

(** [saveApiKey(providerId, apiKey)] *)
Definition saveApiKey (providerId apiKey : string) (st : state) : state :=
  State (<[providerId := apiKey]> (apiKeys st)) (modelsCache st)
        (Keys (<[providerId := apiKey]> (apiKeys st))) (calls st).

(** [getApiKey(providerId)] *)
Definition getApiKey (providerId : string) (st : state) : string :=
  default EmptyString (apiKeys st !! providerId).

(** [data.field || []], [None] when [data] is [null]. *)
Definition field_or_empty (data : json) (field : string) : option json :=
  match data with
  | JNull => None
  | _ => match getProp data field with
         | Some v => Some (if truthy v then v else JArr [] [])
         | None => Some (JArr [] [])
         end
  end.

(** [getModels(providerId)] *)
Definition getModels (providerId : string) (fetched : settled response) (st : state)
  : outcome json * state :=
  let miss :=
    let st1 := State (apiKeys st) (modelsCache st) (storedKeys st)
                     (calls st ++ [GetModels providerId (getApiKey providerId st)]) in
    match request fetched with
    | Failed e => (Failed e, st1)
    | Returned data =>
        match field_or_empty data "models" with
        | None => (Failed TypeError, st1)
        | Some models =>
            (Returned models,
             State (apiKeys st1) (<[providerId := models]> (modelsCache st1))
                   (storedKeys st1) (calls st1))
        end
    end in
  match modelsCache st !! providerId with
  | Some cached => if truthy cached then (Returned cached, st) else miss
  | None => miss
  end.

(** [clearModelsCache(providerId)]; [None] is a call without argument. *)
Definition clearModelsCache (providerId : option string) (st : state) : state :=
  match providerId with
  | Some (String a r) =>
      State (apiKeys st) (delete (String a r) (modelsCache st)) (storedKeys st) (calls st)
  | Some EmptyString | None =>
      State (apiKeys st) ∅ (storedKeys st) (calls st)
  end.

(** What [testApiKey] resolves with: [{success: true, message, models}], or
    [{success: false}] with the message [Authentication failed: ] followed
    by the message of the error. *)
Inductive test_result : Type :=
  | KeyAccepted (message : string) (models : json)
  | KeyRefused (e : error).

(** [testApiKey(providerId, apiKey)] *)
Definition testApiKey (providerId apiKey : string) (fetched : settled response)
    (st : state) : test_result * state :=
  let st1 := State (apiKeys st) (modelsCache st) (storedKeys st)
                   (calls st ++ [TestKey providerId apiKey]) in
  match request fetched with
  | Failed e => (KeyRefused e, st1)
  | Returned data =>
      match field_or_empty data "models" with
      | None => (KeyRefused TypeError, st1)
      | Some models =>
          (KeyAccepted ("Successfully authenticated with " +:+ providerId) models, st1)
      end
  end.

End Api.

(** ** The provider table and its model cache, [AIProviders] *)

Module Providers.
Import JS.

(** A model, [{id, name}]. *)
Definition model : Type := string * string.

(** The part of a provider's entry that [getModels] reads: its name, its
    default models and whether it has a [fetchModels] function. *)
Record provider : Type := Provider {
  provider_name : string;
  models : list model;
  fetchModels : bool
}.

(** [this.providers] *)
Definition providers : list (string * provider) :=
  [("openai",
    Provider "OpenAI"
      [("gpt-4o", "GPT-4o"); ("gpt-4-turbo", "GPT-4 Turbo"); ("gpt-4", "GPT-4");
       ("gpt-3.5-turbo", "GPT-3.5 Turbo")] true);
   ("gemini",
    Provider "Google Gemini"
      [("gemini-pro", "Gemini Pro"); ("gemini-ultra", "Gemini Ultra")] true);
   ("anthropic",
    Provider "Anthropic"
      [("claude-3-opus-20240229", "Claude 3 Opus");
       ("claude-3-sonnet-20240229", "Claude 3 Sonnet");
       ("claude-3-haiku-20240307", "Claude 3 Haiku");
       ("claude-2.1", "Claude 2.1")] true);
   ("openroute",
    Provider "OpenRoute"
      [("openai/gpt-4o", "OpenAI GPT-4o");
       ("anthropic/claude-3-opus", "Anthropic Claude 3 Opus");
       ("google/gemini-pro", "Google Gemini Pro");
       ("meta-llama/llama-3-70b-instruct", "Meta Llama 3 70B")] true);
   ("groq",
    Provider "Groq"
      [("llama3-70b-8192", "Llama-3 70B"); ("llama3-8b-8192", "Llama-3 8B");
       ("mixtral-8x7b-32768", "Mixtral 8x7B"); ("gemma-7b-it", "Gemma 7B")] true);
   ("ollama",
    Provider "Ollama"
      [("llama3", "Llama 3"); ("mistral", "Mistral"); ("gemma", "Gemma");
       ("phi", "Phi")] true)].

(** [this.providers[providerId]] *)
Fixpoint lookup_provider (providerId : string) (table : list (string * provider))
  : option provider :=
  match table with
  | [] => None
  | (k, p) :: rest => if String.eqb k providerId then Some p else lookup_provider providerId rest
  end.

Record state : Type := State {
  apiKeys : gmap string string;
  modelsCache : gmap string (list model);
  (** the keys last stored under [mcp_client_api_keys] *)
  storedKeys : option (gmap string string);
  (** the calls of a provider's [fetchModels]: provider and API key *)
  fetches : list (string * option string)
}.

(** [getApiKey(providerId)] *)
Definition getApiKey (providerId : string) (st : state) : string :=
  default EmptyString (apiKeys st !! providerId).

(** [clearModelsCache(providerId = null)] *)
Definition clearModelsCache (providerId : option string) (st : state) : state :=
  match providerId with
  | Some (String a r) =>
      State (apiKeys st)
            (filter (λ kv, String.prefix (String a r +:+ "_") kv.1 = false)
                    (modelsCache st))
            (storedKeys st) (fetches st)
  | Some EmptyString | None => State (apiKeys st) ∅ (storedKeys st) (fetches st)
  end.

(** [saveApiKey(providerId, apiKey)] *)
Definition saveApiKey (providerId apiKey : string) (st : state) : state :=
  clearModelsCache (Some providerId)
    (State (<[providerId := apiKey]> (apiKeys st)) (modelsCache st)
           (Some (<[providerId := apiKey]> (apiKeys st))) (fetches st)).

(** The key under which [getModels] caches: the provider, an underscore and
    the first five characters of its API key (bytes here, so exact for keys
    in ASCII). *)
Definition cacheKey (providerId : string) (st : state) : string :=
  providerId +:+ "_" +:+ String.substring 0 5 (getApiKey providerId st).

(** [getModels(providerId)]; [fetched] is how the provider's [fetchModels]
    settles, if it is called. *)
Definition getModels (providerId : string) (fetched : settled (list model)) (st : state)
  : list model * state :=
  match lookup_provider providerId providers with
  | None => ([], st)
  | Some provider =>
      match modelsCache st !! cacheKey providerId st with
      | Some cached => (cached, st)
      | None =>
          let attempt (key : option string) :=
            let st1 := State (apiKeys st) (modelsCache st) (storedKeys st)
                             (fetches st ++ [(providerId, key)]) in
            match fetched with
            | Resolved (m :: ms) =>
                (m :: ms,
                 State (apiKeys st1)
                       (<[cacheKey providerId st := m :: ms]> (modelsCache st1))
                       (storedKeys st1) (fetches st1))
            | Resolved [] | Rejected _ => (models provider, st1)
            end in
          if String.eqb providerId "ollama" && fetchModels provider then attempt None
          else if fetchModels provider then
            if negb (String.eqb (getApiKey providerId st) EmptyString)
            then attempt (Some (getApiKey providerId st))
            else (models provider, st)
          else (models provider, st)
      end
  end.

(** [formatErrorMessage(error, provider)] *)
Definition formatErrorMessage (error provider : string) : string :=
  if String.eqb error EmptyString then "Unknown error occurred"
  else if contains "401" error || contains "authentication" error
  then "Authentication failed with " +:+ provider +:+ ". Please check your API key."
  else if contains "429" error || contains "rate limit" error || contains "quota" error
  then "Rate limit exceeded for " +:+ provider
       +:+ ". Please try again later or check your account quota."
  else if contains "500" error || contains "502" error || contains "503" error
          || contains "504" error
  then provider
       +:+ " server error. The service might be experiencing issues. Please try again later."
  else error.

End Providers.

(** * Properties *)

(** ** Splitting tool identifiers *)

Section Splitting.
Import JS.

Variable c : ascii.






End Splitting.

(** ** The orchestration reply *)

Section Orchestration.
Import JS App.


Lemma some_named_false (id : string) (recorded : list used_tool) :
  some_named id recorded = false ↔ id ∉ name <$> recorded.
Proof.
  unfold some_named. induction recorded as [|t ts IH]; simpl.
  - split; [intros _; apply not_elem_of_nil|reflexivity].
  - rewrite orb_false_iff, IH, not_elem_of_cons, String.eqb_neq.
    split; intros [Hne Hin]; split; auto.
Qed.

(** Identifiers without an underscore are recorded under their own name,
    which is what the membership test compares with: they never repeat. *)
Lemma bare_tools_recorded_once (ss : list step) (acc acc' : string * list used_tool) :
  (∀ s id, s ∈ ss → tool s = Some id → includes "_" id = false) →
  NoDup (name <$> acc.2) →
  process_steps acc ss = Some acc' →
  NoDup (name <$> acc'.2).
Proof.
  revert acc. induction ss as [|s ss IH]; intros [formatted recorded] Hbare Hnd; simpl.
  - intros [= <-]. exact Hnd.
  - destruct (String.eqb (type s) "response"); [apply IH; [set_solver|exact Hnd]|].
    destruct (String.eqb (type s) "tool_call").
    + destruct (tool s) as [id|] eqn:Hid; [|discriminate].
      apply IH; [set_solver|]. simpl.
      destruct (some_named id recorded) eqn:Hn; simpl; [exact Hnd|].
      unfold resolve. rewrite (Hbare s id); [|set_solver|exact Hid].
      rewrite fmap_app. simpl. apply NoDup_app. split; [exact Hnd|].
      split; [|apply NoDup_singleton].
      intros x Hx ->%list_elem_of_singleton.
      apply some_named_false in Hn. contradiction.
    + destruct (String.eqb (type s) "tool_result"); apply IH; solve [set_solver|exact Hnd].
Qed.

(** C1: two tool-call steps for the same prefixed identifier leave two equal
    entries in [usedTools]: the membership test compares the recorded tool
    name, which has lost its server prefix, with the full identifier. *)
Theorem repeated_prefixed_tool_recorded_twice :
  let call := Step "tool_call" None (Some "fs_list_dir") (Some (JObj [])) in
  snd <$> processAiWithToolsResponse (Some (AiResult None (Some [call; call])))
  = Some [UsedTool "list_dir" "fs" (Some (JObj []));
          UsedTool "list_dir" "fs" (Some (JObj []))].
Proof. reflexivity. Qed.

(** C3: the steps [tool_call fs_list_dir {}], [tool_result "[a.txt, b.txt]"],
    [response "Here are your files."] compose a content that ends with the
    response text and holds the result block, and the only tool used is
    [list_dir] of server [fs]. *)
Theorem list_files_scenario :
  ∃ processedResponse,
    processAiWithToolsResponse
      (Some (AiResult None
               (Some [Step "tool_call" None (Some "fs_list_dir") (Some (JObj []));
                      Step "tool_result" (Some "[a.txt, b.txt]") None None;
                      Step "response" (Some "Here are your files.") None None])))
    = Some (processedResponse, [UsedTool "list_dir" "fs" (Some (JObj []))])
    ∧ endsWith processedResponse "Here are your files." = true
    ∧ contains (LF +:+ "结果: [a.txt, b.txt]" +:+ LF +:+ LF) processedResponse = true
    ∧ processedResponse
      = LF +:+ LF +:+ "[使用工具: fs_list_dir]" +:+ LF
        +:+ LF +:+ "结果: [a.txt, b.txt]" +:+ LF +:+ LF
        +:+ "Here are your files.".
Proof. eexists. repeat split; reflexivity. Qed.

End Orchestration.

(** ** Loading a configuration *)

Section Loading.
Import JS Tools.

Lemma keys_nonempty (props : list (string * json)) :
  props ≠ [] → 0 < length (remove_dups (props.*1)).
Proof.
  destruct props as [|[k v] rest]; [congruence|]. intros _.
  assert (k ∈ remove_dups (((k, v) :: rest).*1)) as Hin
    by (apply elem_of_remove_dups; simpl; left).
  destruct (remove_dups _); [by apply elem_of_nil in Hin|simpl; lia].
Qed.

(** Whether the list renders depends on the list element and on the
    configuration only. *)
Lemma renderToolsList_ext (a b : state) :
  toolsList a = toolsList b → config a = config b →
  renderToolsList a = renderToolsList b.
Proof. unfold renderToolsList. by intros -> ->. Qed.

Lemma toolsList_notify (m s : string) (st : state) :
  toolsList (notify m s st) = toolsList st.
Proof. unfold notify. by destruct (windowApp st). Qed.

Lemma toolsList_saveConfig (st : state) : toolsList (saveConfig st) = toolsList st.
Proof. unfold saveConfig. by destruct (truthy_opt (config st)). Qed.

Lemma load_rejected (message : string) (st : state) :
  config (load_failed message st).2 = config st
  ∧ savedConfig (load_failed message st).2 = savedConfig st.
Proof. unfold load_failed, notify. simpl. destruct (windowApp st); split; reflexivity. Qed.

(** A configuration that validates is in place and stored before the list
    is rendered, and the load reports whether the list rendered. *)
Lemma load_accepted (cfg : json) (st : state) :
  validateConfig cfg = true →
  let result := loadConfigFromFile (Resolved cfg) st in
  config result.2 = Some cfg
  ∧ savedConfig result.2 = Some (jsonified cfg)
  ∧ result.1 = renderToolsList (set_config (Some cfg) st).
Proof.
  intros Hv. unfold loadConfigFromFile. rewrite Hv. cbn [negb].
  assert (truthy cfg = true) as Hcfg.
  { unfold validateConfig in Hv. by destruct (truthy cfg). }
  set (st2 := saveConfig (set_config (Some cfg) st)).
  assert (config st2 = Some cfg ∧ savedConfig st2 = Some (jsonified cfg)) as [Hc Hs].
  { unfold st2, saveConfig. cbn. by rewrite Hcfg. }
  rewrite (renderToolsList_ext st2 (set_config (Some cfg) st))
    by (by rewrite ?Hc; unfold st2; rewrite ?toolsList_saveConfig).
  destruct (renderToolsList (set_config (Some cfg) st)).
  - cbn [fst snd]. unfold notify. by destruct (windowApp st2).
  - destruct (load_rejected TypeError_message st2) as [-> ->]. done.
Qed.

(** C5, as the code has it: a load fails and keeps the previous
    configuration (in memory and in storage) unless the parsed input has an
    [mcpServers] property that is an object or an array with at least one
    key.  In that case the whole parsed input becomes the configuration and
    is stored, and only then is the list of servers rendered: the load
    reports success exactly when that rendering returns, and a failure
    reported for such an input comes with the configuration replaced. *)
Theorem load_rejects_or_replaces (parsed : settled json) (st : state) :
  let result := loadConfigFromFile parsed st in
  match parsed with
  | Resolved cfg =>
      match getProp cfg "mcpServers" with
      | Some (JObj (_ :: _)) | Some (JArr (_ :: _) _) | Some (JArr [] (_ :: _)) =>
          config result.2 = Some cfg
          ∧ savedConfig result.2 = Some (jsonified cfg)
          ∧ result.1 = renderToolsList (set_config (Some cfg) st)
      | _ =>
          result.1 = false
          ∧ config result.2 = config st
          ∧ savedConfig result.2 = savedConfig st
      end
  | Rejected _ =>
      result.1 = false
      ∧ config result.2 = config st
      ∧ savedConfig result.2 = savedConfig st
  end.
Proof.
  assert (∀ cfg servers, getProp cfg "mcpServers" = Some servers →
          typeof servers = "object" → truthy servers = true →
          0 < keys_length servers →
          let result := loadConfigFromFile (Resolved cfg) st in
          config result.2 = Some cfg
          ∧ savedConfig result.2 = Some (jsonified cfg)
          ∧ result.1 = renderToolsList (set_config (Some cfg) st)) as Haccept.
  { intros cfg servers Hget Hty Htr Hkeys. apply load_accepted.
    unfold validateConfig.
    assert (truthy cfg = true) as Hcfg by (destruct cfg; simpl in Hget; done).
    rewrite Hget, Hcfg. simpl. rewrite Htr, Hty. simpl.
    by rewrite bool_decide_eq_true_2 by exact Hkeys. }
  assert (∀ cfg, validateConfig cfg = false →
          let result := loadConfigFromFile (Resolved cfg) st in
          result.1 = false ∧ config result.2 = config st
          ∧ savedConfig result.2 = savedConfig st) as Hreject.
  { intros cfg Hv. unfold loadConfigFromFile. rewrite Hv. simpl.
    split; [reflexivity|apply load_rejected]. }
  destruct parsed as [cfg|message]; simpl.
  2: { split; [reflexivity|apply load_rejected]. }
  destruct (getProp cfg "mcpServers") as [servers|] eqn:Hget.
  2: { apply Hreject. unfold validateConfig. rewrite Hget. simpl.
       by rewrite orb_true_r. }
  destruct servers as [|b|n|s|props|items named].
  1-4: apply Hreject; unfold validateConfig; rewrite Hget; simpl;
       destruct (truthy cfg); simpl; try reflexivity.
  1: destruct b; reflexivity.
  1: destruct (number_truthy n); reflexivity.
  1: destruct s; reflexivity.
  - destruct props as [|kv props].
    + apply Hreject. unfold validateConfig. rewrite Hget. simpl.
      destruct (truthy cfg); reflexivity.
    + apply (Haccept cfg _ Hget); try reflexivity.
      apply keys_nonempty. discriminate.
  - destruct items as [|x items]; [destruct named as [|kv named]|].
    + apply Hreject. unfold validateConfig. rewrite Hget. simpl.
      destruct (truthy cfg); reflexivity.
    + apply (Haccept cfg _ Hget); try reflexivity.
      apply (keys_nonempty (kv :: named)). discriminate.
    + apply (Haccept cfg _ Hget); try reflexivity. simpl. lia.
Qed.

(** C5, as stated, fails on a configuration whose [mcpServers] is a
    non-empty array: it is not a mapping of server names, yet the load
    succeeds and replaces the configuration. *)
Lemma array_of_servers_is_loaded :
  let cfg := JObj [("mcpServers", JArr [JStr "fs"] [])] in
  let st := constructor false ∅ in
  getProp cfg "mcpServers" = Some (JArr [JStr "fs"] [])
  ∧ (loadConfigFromFile (Resolved cfg) st).1 = true
  ∧ config (loadConfigFromFile (Resolved cfg) st).2 = Some cfg
  ∧ config (loadConfigFromFile (Resolved cfg) st).2 ≠ config st.
Proof. repeat split; try reflexivity. discriminate. Qed.

End Loading.

(** ** The connected set *)

Section Connections.
Import JS Tools.

(** Notifications, alerts, result displays and the request log leave the
    registry's other components alone. *)
Lemma connected_notify (m s : string) (st : state) :
  connectedServers (notify m s st) = connectedServers st.
Proof. unfold notify. by destruct (windowApp st). Qed.

Lemma requests_notify (m s : string) (st : state) :
  requests (notify m s st) = requests st.
Proof. unfold notify. by destruct (windowApp st). Qed.

Lemma hasApiAccess_notify (m s : string) (st : state) :
  hasApiAccess (notify m s st) = hasApiAccess st.
Proof. unfold notify. by destruct (windowApp st). Qed.

Lemma connected_saveConfig (st : state) :
  connectedServers (saveConfig st) = connectedServers st.
Proof. unfold saveConfig. by destruct (truthy_opt (config st)). Qed.

Lemma requests_saveConfig (st : state) : requests (saveConfig st) = requests st.
Proof. unfold saveConfig. by destruct (truthy_opt (config st)). Qed.

Lemma hasApiAccess_saveConfig (st : state) :
  hasApiAccess (saveConfig st) = hasApiAccess st.
Proof. unfold saveConfig. by destruct (truthy_opt (config st)). Qed.

Lemma config_saveConfig (st : state) : config (saveConfig st) = config st.
Proof. unfold saveConfig. by destruct (truthy_opt (config st)). Qed.

(** The rendering that ends a toggle of the connection adds at most a
    notification. *)
Lemma rerender_frame (connect : bool) (st : state) :
  connectedServers (rerender connect st) = connectedServers st
  ∧ requests (rerender connect st) = requests st
  ∧ hasApiAccess (rerender connect st) = hasApiAccess st
  ∧ config (rerender connect st) = config st
  ∧ savedConfig (rerender connect st) = savedConfig st
  ∧ toolsList (rerender connect st) = toolsList st.
Proof.
  unfold rerender. destruct (renderToolsList st); [done|].
  unfold notify. by destruct (windowApp st).
Qed.

Lemma connected_rerender (connect : bool) (st : state) :
  connectedServers (rerender connect st) = connectedServers st.
Proof. apply rerender_frame. Qed.

Lemma requests_rerender (connect : bool) (st : state) :
  requests (rerender connect st) = requests st.
Proof. apply rerender_frame. Qed.

Lemma hasApiAccess_rerender (connect : bool) (st : state) :
  hasApiAccess (rerender connect st) = hasApiAccess st.
Proof. apply rerender_frame. Qed.

Lemma config_rerender (connect : bool) (st : state) :
  config (rerender connect st) = config st.
Proof. apply rerender_frame. Qed.

(** C7: a connect attempt either leaves the connected set as it was or
    adds the one server name; the set changes only when the backend answered
    with success; a reply that reports failure, or a rejected request,
    leaves it unchanged; and a success reply for a configured server, with
    API access, adds the name. *)
Theorem connect_adds_only_on_success
    (serverName : string) (remote : settled connect_result) (st : state) :
  let st' := final (toggleServerConnection serverName true remote st) in
  (connectedServers st' = connectedServers st
   ∨ connectedServers st' = {[serverName]} ∪ connectedServers st)
  ∧ (connectedServers st' ≠ connectedServers st →
     ∃ result, remote = Resolved result ∧ connect_success result = true)
  ∧ ((∀ result, remote = Resolved result → connect_success result = false) →
     connectedServers st' = connectedServers st)
  ∧ (∀ result cfg servers e,
       remote = Resolved result → connect_success result = true →
       hasApiAccess st = true → serverEntry st serverName = Entry cfg servers e →
       connectedServers st' = {[serverName]} ∪ connectedServers st).
Proof.
  unfold toggleServerConnection.
  destruct (hasApiAccess st) eqn:Hapi; simpl.
  2: { rewrite connected_notify. repeat split; auto; try congruence. }
  destruct (serverEntry st serverName) as [| |cfg servers e] eqn:Hentry; simpl.
  1, 2: repeat split; auto; congruence.
  destruct remote as [result|message]; simpl.
  2: { rewrite connected_notify. simpl. repeat split; auto; congruence. }
  destruct (connect_success result) eqn:Hok; simpl;
    rewrite connected_rerender, connected_notify; simpl.
  - repeat split; eauto.
    intros Hfail. specialize (Hfail result eq_refl). congruence.
  - repeat split; auto; congruence.
Qed.

(** A refused connection, at a concrete registry. *)
Lemma connect_adds_only_on_success_witness :
  let st := State (Some (JObj [("mcpServers", JObj [("fs", JObj [])])]))
                  {["git"]} true false None ∅ ∅ [] [] [] true in
  let refused := Resolved (ConnectResult false (Some "spawn failed")) in
  connectedServers (final (toggleServerConnection "fs" true refused st)) = {["git"]}.
Proof.
  intros st refused.
  apply (proj1 (proj2 (proj2 (connect_adds_only_on_success "fs" refused st)))).
  intros result [= <-]. reflexivity.
Defined.

End Connections.

(** ** Executing a tool from its panel *)

Section Executing.
Import JS Tools.

Variable JSON_parse : string → option json.

Lemma convert_number (input : input_el) :
  el_type input = Some "number" ∨ el_type input = Some "integer" →
  convert JSON_parse input = inr (JNum (Number (el_value input))).
Proof. unfold convert. intros [-> | ->]; reflexivity. Qed.

(** The only conversion that throws is the parse of an object or array
    field. *)
Lemma convert_throws (input : input_el) (message : string) :
  convert JSON_parse input = inl message →
  (el_type input = Some "object" ∨ el_type input = Some "array")
  ∧ JSON_parse (el_value input) = None
  ∧ message = "Invalid JSON in " +:+ el_name input.
Proof.
  unfold convert.
  repeat (case_bool_decide; simpl; try discriminate).
  all: destruct (JSON_parse (el_value input)); intros [= <-]; auto.
Qed.

Lemma collect_throws (inputElements : list input_el) (inputs : list (string * json))
    (message : string) :
  collect JSON_parse inputElements inputs = inl message →
  ∃ input, input ∈ inputElements
    ∧ (el_type input = Some "object" ∨ el_type input = Some "array")
    ∧ JSON_parse (el_value input) = None
    ∧ message = "Invalid JSON in " +:+ el_name input.
Proof.
  revert inputs. induction inputElements as [|input rest IH]; intros inputs; simpl.
  - discriminate.
  - destruct (_ || _).
    + intros H. destruct (IH _ H) as (i & Hin & Hi). exists i. split; [by right|exact Hi].
    + destruct (convert JSON_parse input) as [m|value] eqn:Hc.
      * intros [= <-]. exists input. split; [by left|by apply convert_throws].
      * intros H. destruct (IH _ H) as (i & Hin & Hi).
        exists i. split; [by right|exact Hi].
Qed.

(** C2, as the code has it: a number or integer field is converted with
    [Number] and never makes the execution fail; with the panel in place,
    API access and the server connected, the tool call is sent once with
    the converted inputs, unless an object or array field holds text that
    does not parse, which is the one error raised before any request. *)
Theorem number_fields_never_abort
    (toolId serverName toolName : string) (remote : settled call_result)
    (st : state) (toolInterface : panel) (inputElements : list input_el) :
  document st !! toolId = Some toolInterface →
  resultContainer toolInterface = true →
  form toolInterface = Some inputElements →
  hasApiAccess st = true →
  serverName ∈ connectedServers st →
  let st' := final (executeTool JSON_parse toolId serverName toolName remote st) in
  (∀ input, el_type input = Some "number" ∨ el_type input = Some "integer" →
            convert JSON_parse input = inr (JNum (Number (el_value input))))
  ∧ match collect JSON_parse inputElements [] with
    | inr inputs =>
        requests st' = requests st ++ [CallTool serverName toolName inputs]
    | inl message =>
        requests st' = requests st
        ∧ results st' !! toolId = Some (ErrorText message)
        ∧ ∃ input, input ∈ inputElements
            ∧ (el_type input = Some "object" ∨ el_type input = Some "array")
            ∧ JSON_parse (el_value input) = None
            ∧ message = "Invalid JSON in " +:+ el_name input
    end.
Proof.
  intros Hdoc Hres Hform Hapi Hconn. split; [apply convert_number|].
  unfold executeTool. rewrite Hdoc, Hres, Hapi. simpl.
  rewrite bool_decide_eq_true_2 by exact Hconn. simpl. rewrite Hform.
  destruct (collect JSON_parse inputElements []) as [message|inputs] eqn:Hc; simpl.
  - split; [reflexivity|]. split; [apply lookup_insert_eq|].
    by apply (collect_throws _ []).
  - destruct remote as [result|message]; simpl; [|reflexivity].
    destruct (call_success result); reflexivity.
Qed.

End Executing.

Section ExecutingExamples.
Import JS Tools.

(** C2, as stated, fails: with [abc] as the value of an integer field the
    execution does not stop, and one request, carrying [NaN], goes to the
    backend.  A number widget that reports the empty string for such text
    fares no better: the request then carries 0. *)
Lemma integer_field_abc_is_sent :
  let run value :=
    final (executeTool (λ _, None) "panel" "fs" "read_lines"
             (Resolved (CallResult true None None)) (integer_panel_state value)) in
  Number "abc" = NaN
  ∧ requests (integer_panel_state "abc") = []
  ∧ requests (run "abc") = [CallTool "fs" "read_lines" [("count", JNum NaN)]]
  ∧ results (run "abc") !! "panel" = Some (ToolSucceeded None)
  ∧ requests (run EmptyString)
    = [CallTool "fs" "read_lines" [("count", JNum (Dec false 0 0))]].
Proof. repeat split; reflexivity. Qed.

Lemma number_fields_never_abort_witness :
  convert (λ _, None) (InputEl "count" "abc" false (Some "integer")) = inr (JNum NaN)
  ∧ requests (final (executeTool (λ _, None) "panel" "fs" "read_lines"
                       (Rejected "timeout") (integer_panel_state "abc")))
    = [CallTool "fs" "read_lines" [("count", JNum NaN)]].
Proof.
  assert ("fs" ∈ connectedServers (integer_panel_state "abc")) as Hin
    by (vm_compute; reflexivity).
  destruct (number_fields_never_abort (λ _, None) "panel" "fs" "read_lines"
              (Rejected "timeout") (integer_panel_state "abc")
              (Panel true (Some [InputEl "count" "abc" false (Some "integer")]))
              [InputEl "count" "abc" false (Some "integer")]
              eq_refl eq_refl eq_refl eq_refl Hin) as [Hconv Hsent].
  split; [apply (Hconv (InputEl "count" "abc" false (Some "integer"))); by right|].
  exact Hsent.
Defined.

End ExecutingExamples.

(** ** Connecting to all servers *)

Section ConnectAll.
Import JS App.

Lemma add_servers_union (servers : list string) (connected : gset string) :
  add_servers servers connected = list_to_set servers ∪ connected.
Proof.
  unfold add_servers. revert connected.
  induction servers as [|s servers IH]; intros connected; simpl.
  - set_solver.
  - rewrite IH. set_solver.
Qed.

Lemma add_servers_twice (servers : list string) (connected : gset string) :
  add_servers servers (add_servers servers connected) = add_servers servers connected.
Proof. rewrite !add_servers_union. set_solver. Qed.

(** The registry after a connect-all; the rendering of the list that
    follows the merge adds at most a notification. *)
Lemma connectToMcpServers_registry (remote : settled connect_all_result) (st : state) :
  mcpTools (connectToMcpServers remote st)
  = match remote, mcpTools st with
    | Resolved result, Some t =>
        if mcpApi st && all_success result then
          match all_servers result with
          | Some servers =>
              Some (Tools.set_connected
                      (add_servers servers (Tools.connectedServers t)) t)
          | None => Some t
          end
        else Some t
    | _, _ => mcpTools st
    end
  ∧ mcpApi (connectToMcpServers remote st) = mcpApi st.
Proof.
  unfold connectToMcpServers.
  destruct (mcpApi st) eqn:Hapi; cbn [negb andb].
  2: { cbn. rewrite Hapi. by destruct remote, (mcpTools st). }
  destruct remote as [result|message]; [|by cbn].
  destruct (all_success result); [|by cbn; destruct (mcpTools st)].
  destruct (mcpTools st) as [t|] eqn:Ht, (all_servers result) as [servers|];
    cbn; rewrite ?Ht; unfold from_option;
    try case_match; cbn; by rewrite ?Ht, ?Hapi.
Qed.

(** C9: merging the same connect-all reply a second time leaves the
    connected set as the first merge left it. *)
Theorem connectAll_idempotent (remote : settled connect_all_result) (st : state) :
  Tools.connectedServers
    <$> mcpTools (connectToMcpServers remote (connectToMcpServers remote st))
  = Tools.connectedServers <$> mcpTools (connectToMcpServers remote st).
Proof.
  destruct (connectToMcpServers_registry remote (connectToMcpServers remote st))
    as [-> _].
  destruct (connectToMcpServers_registry remote st) as [-> ->].
  destruct remote as [result|message]; [|reflexivity].
  destruct (mcpTools st) as [t|]; [|reflexivity].
  destruct (mcpApi st && all_success result); [|reflexivity].
  destruct (all_servers result) as [servers|]; [|reflexivity].
  simpl. by rewrite add_servers_twice.
Qed.

End ConnectAll.

(** ** Rehydrating the transcript *)

Section Rehydration.
Import JS App.

(** Whether a message can be formatted depends on the registry only. *)
Lemma formatMessage_ext (a b : state) :
  mcpTools a = mcpTools b → formatMessage a = formatMessage b.
Proof. unfold formatMessage. by intros ->. Qed.

Lemma addMessageToChat_done role content used now st rendered :
  chatContainer st = Some rendered → formatMessage st = true →
  addMessageToChat role content used now st
  = Done (set_chatHistory (chatHistory st ++ [Message role content used now])
            (set_chatContainer (Some (rendered ++ [(role, content)])) st)).
Proof. intros Hc Hf. unfold addMessageToChat. by rewrite Hc, Hf. Qed.

Lemma addMessageToChat_threw role content used now st rendered :
  chatContainer st = Some rendered → formatMessage st = false →
  addMessageToChat role content used now st = Threw st.
Proof. intros Hc Hf. unfold addMessageToChat. by rewrite Hc, Hf. Qed.

Lemma forEach_replay_appends (nows : nat → string) (remaining : nat) :
  ∀ (k : nat) (st : state) (rendered : list (string * string)),
    chatContainer st = Some rendered →
    formatMessage st = true →
    (k + remaining ≤ length (chatHistory st))%nat →
    ∃ st', forEach_replay remaining k nows st = Done st'
      ∧ chatHistory st'
        = chatHistory st
          ++ imap (λ i m, Message (role m) (text m) [] (nows (k + i)%nat))
               (take remaining (drop k (chatHistory st))).
Proof.
  induction remaining as [|remaining IH]; intros k st rendered Hc Hf Hlen;
    cbn [forEach_replay].
  - exists st. split; [done|]. by rewrite app_nil_r.
  - destruct (lookup_lt_is_Some_2 (chatHistory st) k) as [m Hm]; [lia|].
    rewrite Hm, (addMessageToChat_done _ _ _ _ _ _ Hc Hf).
    edestruct IH as (st' & -> & E);
      [reflexivity|by rewrite <- Hf; apply formatMessage_ext|
       simpl; rewrite length_app; simpl; lia|].
    exists st'. split; [done|]. rewrite E. simpl.
    rewrite (drop_S _ _ _ Hm). simpl. rewrite <- app_assoc. simpl.
    rewrite Nat.add_0_r. f_equal. f_equal.
    rewrite drop_app_le by lia.
    rewrite take_app_le by (rewrite length_drop; lia).
    apply imap_ext. intros i x _. simpl. f_equal. f_equal. lia.
Qed.

(** When the formatting throws, the replay stops at its first entry. *)
Lemma forEach_replay_threw (nows : nat → string) (remaining k : nat) (st : state)
    (rendered : list (string * string)) :
  chatContainer st = Some rendered →
  formatMessage st = false →
  chatHistory (final (forEach_replay remaining k nows st)) = chatHistory st.
Proof.
  intros Hc Hf. revert k. induction remaining as [|remaining IH]; intros k;
    cbn [forEach_replay]; [done|].
  destruct (chatHistory st !! k) as [m|]; [|apply IH].
  by rewrite (addMessageToChat_threw _ _ _ _ _ _ Hc Hf).
Qed.

(** C10, as the code has it: when the messages can be formatted,
    rehydrating a stored transcript of [n] entries leaves [2 * n] entries in
    memory, the stored ones followed by a replayed copy of each with no
    tools, and saving then stores the doubled list.  When formatting throws
    (the registry's configuration gives a tool without a name that is a
    string), the replay stops at its first entry and the [n] stored entries
    are all there is. *)
Theorem rehydration_doubles_history
    (nows : nat → string) (st : state)
    (saved : list message) (rendered : list (string * string)) :
  chatContainer st = Some rendered →
  savedHistory st = Some saved →
  let st' := loadChatHistory nows st in
  if formatMessage st then
    chatHistory st' = saved ++ imap (λ k m, Message (role m) (text m) [] (nows k)) saved
    ∧ length (chatHistory st') = (2 * length saved)%nat
    ∧ (∀ m, m ∈ drop (length saved) (chatHistory st') → usedTools m = [])
    ∧ savedHistory (saveChatHistory st')
      = Some (saved ++ imap (λ k m, Message (role m) (text m) [] (nows k)) saved)
  else chatHistory st' = saved.
Proof.
  intros Hc Hs. cbn zeta. unfold loadChatHistory. rewrite Hc, Hs.
  change (length (chatHistory (set_chatHistory saved st))) with (length saved).
  destruct (formatMessage st) eqn:Hf.
  - destruct (forEach_replay_appends nows (length saved) 0 (set_chatHistory saved st)
                rendered Hc Hf) as (st' & -> & E); [simpl; lia|].
    simpl in E. rewrite drop_0, firstn_all in E. cbn [final]. rewrite E.
    repeat split.
    + rewrite length_app, length_imap. lia.
    + rewrite drop_app_length.
      intros m [i [x [-> _]]]%elem_of_lookup_imap. reflexivity.
    + simpl. by rewrite E.
  - by rewrite (forEach_replay_threw nows _ 0 (set_chatHistory saved st) rendered Hc Hf).
Qed.

End Rehydration.

(** ** Runs of the application *)

Section Runs.
Import JS App.

Lemma core_addMessageToChat role content used now st :
  core (final (addMessageToChat role content used now st)) = core st.
Proof.
  unfold addMessageToChat. destruct (chatContainer st); [|done].
  by destruct (formatMessage st).
Qed.

Lemma mcpTools_addMessageToChat role content used now st :
  mcpTools (final (addMessageToChat role content used now st)) = mcpTools st.
Proof.
  unfold addMessageToChat. destruct (chatContainer st); [|done].
  by destruct (formatMessage st).
Qed.

Lemma forEach_replay_frame (nows : nat → string) (remaining : nat) :
  ∀ k st, core (final (forEach_replay remaining k nows st)) = core st
          ∧ mcpTools (final (forEach_replay remaining k nows st)) = mcpTools st.
Proof.
  induction remaining as [|remaining IH]; intros k st; cbn [forEach_replay]; [done|].
  destruct (chatHistory st !! k) as [m|]; [|apply IH].
  pose proof (core_addMessageToChat (role m) (text m) [] (nows k) st) as Hcore.
  pose proof (mcpTools_addMessageToChat (role m) (text m) [] (nows k) st) as Htools.
  destruct (addMessageToChat (role m) (text m) [] (nows k) st) as [st'|st'];
    cbn [final] in *; [|done].
  destruct (IH (S k) st') as [-> ->]. done.
Qed.

Lemma loadChatHistory_frame nows st :
  core (loadChatHistory nows st) = core st
  ∧ mcpTools (loadChatHistory nows st) = mcpTools st.
Proof.
  unfold loadChatHistory.
  destruct (chatContainer st); [|done]. destruct (savedHistory st); [|done].
  destruct (forEach_replay_frame nows (length (chatHistory (set_chatHistory l0 st))) 0
              (set_chatHistory l0 st)) as [-> ->]. done.
Qed.

Lemma clearChat_frame confirmed st :
  core (clearChat confirmed st) = core st
  ∧ mcpTools (clearChat confirmed st) = mcpTools st.
Proof. unfold clearChat. by destruct (chatContainer st), confirmed. Qed.

Lemma connectToMcpServers_core remote st :
  core (connectToMcpServers remote st) = core st.
Proof.
  unfold connectToMcpServers.
  destruct (mcpApi st) eqn:Hapi; [|done].
  destruct remote as [result|]; [|done].
  destruct (all_success result); [|done]. cbn [negb].
  destruct (mcpTools st) as [t|] eqn:Ht, (all_servers result) as [servers|];
    cbn; rewrite ?Ht; unfold from_option; try case_match; done.
Qed.

Lemma connectToMcpServers_tools remote st :
  mcpTools (connectToMcpServers remote st) = mcpTools st
  ∨ (mcpApi st = true
     ∧ ∃ t servers,
         mcpTools st = Some t
         ∧ mcpTools (connectToMcpServers remote st)
           = Some (Tools.set_connected
                     (add_servers servers (Tools.connectedServers t)) t)).
Proof.
  destruct (connectToMcpServers_registry remote st) as [-> _].
  destruct remote as [result|]; [|by left].
  destruct (mcpTools st) as [t|] eqn:Ht; [|by left].
  destruct (mcpApi st); [|by left].
  destruct (all_success result); [|by left].
  destruct (all_servers result) as [servers|]; [|by left].
  right. split; [done|]. by exists t, servers.
Qed.

Lemma set_userInput_core value st : core (set_userInput value st) = core st.
Proof. unfold core. simpl. by destruct (userInput st). Qed.

(** A call of [sendMessage] that finds the flag set changes nothing but
    the notifications. *)
Lemma sendMessage_busy (now value : string) (disabled : bool) (st : state) :
  userInput st = Some value → sendButton st = Some disabled →
  isProcessing st = true →
  sendMessage now st
  = (showNotification "Please wait for the current message to finish processing."
       "warning" st, None).
Proof. intros Hu Hb Hp. unfold sendMessage. by rewrite Hu, Hb, Hp. Qed.

(** What [sendMessage] does to the flag and the widgets: a call that does
    not start a turn leaves them alone, unless it threw with the flag
    set. *)
Lemma sendMessage_core (now : string) (st : state) :
  match sendMessage now st with
  | (st', Some _) =>
      isProcessing st = false ∧ isProcessing st' = true
      ∧ is_Some (userInput st') ∧ is_Some (sendButton st')
      ∧ mcpApi st' = mcpApi st ∧ mcpTools st' = mcpTools st
  | (st', None) =>
      (core st' = core st
       ∨ (isProcessing st' = true ∧ is_Some (userInput st')
          ∧ is_Some (sendButton st') ∧ mcpApi st' = mcpApi st))
      ∧ mcpTools st' = mcpTools st
  end.
Proof.
  unfold sendMessage.
  destruct (userInput st) as [value|] eqn:Hu; [|by split; [left|]].
  destruct (sendButton st) as [disabled|] eqn:Hb; [|by split; [left|]].
  destruct (isProcessing st) eqn:Hp; [by split; [left|]|].
  destruct (String.eqb (trim value) EmptyString); [by split; [left|]|].
  destruct (_ || _); [by split; [left|]|]. destruct (_ && _); [by split; [left|]|].
  generalize (trim value). intros message.
  set (st1 := set_userInput EmptyString (set_processing true st)).
  assert (isProcessing st1 = true ∧ is_Some (userInput st1)
          ∧ is_Some (sendButton st1) ∧ mcpApi st1 = mcpApi st
          ∧ mcpTools st1 = mcpTools st) as (H1 & H2 & H3 & H4 & H5).
  { unfold st1. cbn. rewrite Hu, Hb. cbn. eauto 10. }
  pose proof (core_addMessageToChat "user" message [] now st1) as [= Ep Eu Eb Ea].
  pose proof (mcpTools_addMessageToChat "user" message [] now st1) as Et.
  assert (∀ x : state, bool_decide (is_Some (userInput x))
                       = bool_decide (is_Some (userInput st1)) →
                       is_Some (userInput x)) as Hin.
  { intros x E. rewrite (bool_decide_eq_true_2 _ H2) in E.
    by apply bool_decide_eq_true in E. }
  assert (∀ x : state, bool_decide (is_Some (sendButton x))
                       = bool_decide (is_Some (sendButton st1)) →
                       is_Some (sendButton x)) as Hbt.
  { intros x E. rewrite (bool_decide_eq_true_2 _ H3) in E.
    by apply bool_decide_eq_true in E. }
  destruct (addMessageToChat "user" message [] now st1) as [st2|st2]; cbn [final] in *.
  - destruct (mcpApi st2) eqn:Hapi; cbn; rewrite ?Hapi;
      repeat split; try congruence; auto.
  - split; [right|congruence]. repeat split; try congruence; auto.
Qed.

Lemma turn_failed_frame error now st :
  isProcessing (turn_failed error now st) = isProcessing st
  ∧ mcpApi (turn_failed error now st) = mcpApi st
  ∧ mcpTools (turn_failed error now st) = mcpTools st.
Proof.
  unfold turn_failed.
  pose proof (core_addMessageToChat "ai" ("Error: " +:+ error) [] now st) as [= Ep _ _ Ea].
  pose proof (mcpTools_addMessageToChat "ai" ("Error: " +:+ error) [] now st) as Et.
  by destruct (addMessageToChat "ai" ("Error: " +:+ error) [] now st).
Qed.

Lemma turn_answered_frame content used now st :
  isProcessing (turn_answered content used now st) = isProcessing st
  ∧ mcpApi (turn_answered content used now st) = mcpApi st
  ∧ mcpTools (turn_answered content used now st) = mcpTools st.
Proof.
  unfold turn_answered.
  pose proof (core_addMessageToChat "ai" content used now st) as [= Ep _ _ Ea].
  pose proof (mcpTools_addMessageToChat "ai" content used now st) as Et.
  destruct (addMessageToChat "ai" content used now st) as [st1|st1];
    cbn [final] in *; [done|].
  destruct (turn_failed_frame TypeError_message now st1) as (-> & -> & ->). done.
Qed.

Lemma sendMessage_resume_frame message connected ai now st :
  isProcessing (sendMessage_resume message connected ai now st) = false
  ∧ mcpApi (sendMessage_resume message connected ai now st) = mcpApi st
  ∧ mcpTools (sendMessage_resume message connected ai now st) = mcpTools st.
Proof.
  unfold sendMessage_resume, turn_finally.
  cbn [isProcessing mcpApi mcpTools set_processing]. split; [done|].
  destruct (mcpApi st) eqn:Hapi.
  - destruct connected; [|by destruct (turn_failed_frame message0 now st) as (_ & -> & ->)].
    destruct ai as [result|error].
    + destruct (processAiWithToolsResponse result) as [[? ?]|].
      * match goal with |- context [turn_answered ?c ?u now ?x] =>
          destruct (turn_answered_frame c u now x) as (_ & -> & ->) end. done.
      * match goal with |- context [turn_failed ?e now ?x] =>
          destruct (turn_failed_frame e now x) as (_ & -> & ->) end. done.
    + match goal with |- context [turn_failed ?e now ?x] =>
        destruct (turn_failed_frame e now x) as (_ & -> & ->) end. done.
  - match goal with |- context [turn_answered ?c ?u now ?x] =>
      destruct (turn_answered_frame c u now x) as (_ & -> & ->) end. done.
Qed.

(** While a turn is in flight the flag is set, and while the flag is set
    the input box and the send button exist. *)
Lemma processing_invariant (r : running) :
  reachable r →
  (isProcessing (app r) = true →
     is_Some (userInput (app r)) ∧ is_Some (sendButton (app r)))
  ∧ (is_Some (pending r) → isProcessing (app r) = true).
Proof.
  induction 1 as [dom keys stored api tools _|r e _ [IH1 IH2]].
  - simpl. split; [discriminate|by intros [? [=]]].
  - assert (∀ st', core st' = core (app r) →
              (isProcessing st' = true →
                 is_Some (userInput st') ∧ is_Some (sendButton st'))
              ∧ (is_Some (pending r) → isProcessing st' = true)) as Hsame.
    { intros st' [= Hp Hu Hb _]. rewrite Hp. split; [|exact IH2].
      intros H. destruct (IH1 H) as (Hu' & Hb'). split.
      - destruct Hu' as [x Hx]. rewrite Hx in Hu.
        destruct (userInput st'); [eauto|discriminate Hu].
      - destruct Hb' as [x Hx]. rewrite Hx in Hb.
        destruct (sendButton st'); [eauto|discriminate Hb]. }
    destruct e; cbn [react app pending on_tools]; try (apply Hsame; done).
    + apply Hsame, set_userInput_core.
    + pose proof (sendMessage_core now (app r)) as Hs.
      destruct (sendMessage now (app r)) as [st' [query|]]; cbn [app pending].
      * destruct Hs as (_ & Hp & Hu & Hb & _). rewrite Hp. eauto.
      * destruct Hs as [[Hs|(Hp & Hu & Hb & _)] _]; [by apply Hsame|].
        rewrite Hp. eauto.
    + destruct (pending r) as [query|] eqn:Hq; cbn [app pending].
      * destruct (sendMessage_resume_frame query connected ai now (app r)) as (-> & _).
        split; [discriminate|by intros [? [=]]].
      * rewrite Hq. split; [exact IH1|exact IH2].
    + apply Hsame, connectToMcpServers_core.
    + apply Hsame, loadChatHistory_frame.
    + apply Hsame, clearChat_frame.
Qed.

(** C4: in every state the application can reach with a turn in progress,
    a further call of [sendMessage] ends with the warning notification and
    nothing else: the transcript, the turn in flight, the request log and
    the flag are as before, and no second turn is started. *)
Theorem busy_submission_rejected (r : running) (now : string) :
  reachable r →
  isProcessing (app r) = true →
  sendMessage now (app r)
  = (showNotification "Please wait for the current message to finish processing."
       "warning" (app r), None)
  ∧ react r (SendClicked now)
    = Running (showNotification "Please wait for the current message to finish processing."
                 "warning" (app r))
              (pending r)
  ∧ chatHistory (app (react r (SendClicked now))) = chatHistory (app r)
  ∧ requests (app (react r (SendClicked now))) = requests (app r)
  ∧ notifications (app (react r (SendClicked now)))
    = notifications (app r)
      ++ [("Please wait for the current message to finish processing.", "warning")].
Proof.
  intros Hr Hp.
  destruct (processing_invariant r Hr) as [Hinv _].
  destruct (Hinv Hp) as ([value Hu] & [disabled Hb]).
  pose proof (sendMessage_busy now value disabled (app r) Hu Hb Hp) as E.
  split; [exact E|]. simpl. rewrite E. done.
Qed.

End Runs.

(** ** Disabling and enabling a server *)

Section Toggling.
Import JS Tools.

Lemma lookup_assign (k : string) (x : json) (props : list (string * json)) :
  lookup_prop k (assign k x props) = Some x.
Proof.
  induction props as [|[k' v] rest IH]; simpl.
  - by rewrite String.eqb_refl.
  - destruct (String.eqb k' k) eqn:E; simpl; by rewrite E.
Qed.

(** Only objects and arrays have properties to read. *)
Lemma getProp_object (v : json) (k : string) (x : json) :
  getProp v k = Some x → typeof v = "object" ∧ truthy v = true ∧ v ≠ JNull.
Proof. destruct v; simpl; done. Qed.

Lemma update_at_object (v : json) (k : string) (x : json) :
  typeof v = "object" → truthy v = true →
  typeof (update_at v k x) = "object" ∧ truthy (update_at v k x) = true
  ∧ update_at v k x ≠ JNull.
Proof. destruct v; simpl; try done. by destruct (array_index k). Qed.

(** Reading back the property that was just replaced. *)
Lemma getProp_update_at (v : json) (k : string) (e x : json) :
  getProp v k = Some e → typeof e = "object" →
  getProp (update_at v k x) k = Some x.
Proof.
  destruct v as [| | | |props|items named]; simpl; try done.
  - intros _ _. apply lookup_assign.
  - destruct (array_index k) as [i|] eqn:Hi; simpl; rewrite Hi.
    + intros He _. apply list_lookup_insert_eq. by apply lookup_lt_Some in He.
    + destruct (String.eqb k "length"); [by intros [= <-]|].
      intros _ _. apply lookup_assign.
Qed.

Lemma set_disabled_object (e : json) (b : bool) :
  typeof e = "object" → truthy e = true →
  ∃ e', set_disabled e b = Some e'
    ∧ typeof e' = "object" ∧ truthy e' = true
    ∧ truthy_opt (getProp e' "disabled") = b.
Proof.
  destruct e as [| | | |props|items named]; simpl; try done; intros _ _.
  - eexists. split; [reflexivity|]. repeat split. simpl. by rewrite lookup_assign.
  - eexists. split; [reflexivity|]. repeat split. simpl. by rewrite lookup_assign.
Qed.

Lemma serverEntry_inv (st : state) (serverName : string) (cfg servers e : json) :
  serverEntry st serverName = Entry cfg servers e →
  config st = Some cfg ∧ getProp cfg "mcpServers" = Some servers
  ∧ getProp servers serverName = Some e ∧ truthy e = true.
Proof.
  unfold serverEntry.
  destruct (config st) as [c|]; [|done].
  destruct (truthy c); simpl; [|done].
  destruct (getProp c "mcpServers") as [s|] eqn:Hs; [|done].
  destruct (getProp s serverName) as [x|] eqn:Hx.
  - destruct (truthy x) eqn:Ht; destruct s; try done; by intros [= <- <- <-].
  - by destruct s.
Qed.

Lemma serverEntry_found (st : state) (serverName : string) (cfg servers e : json) :
  config st = Some cfg → getProp cfg "mcpServers" = Some servers →
  getProp servers serverName = Some e → truthy e = true →
  serverEntry st serverName = Entry cfg servers e.
Proof.
  intros Hc Hs He Ht. unfold serverEntry. rewrite Hc.
  destruct (getProp_object _ _ _ Hs) as (_ & -> & _). simpl. rewrite Hs.
  destruct (getProp_object _ _ _ He) as (_ & _ & Hnull).
  destruct servers; try done; by rewrite He, Ht.
Qed.

(** What one toggle of the connection does to the registry. *)
Lemma toggleServerConnection_frame serverName connect remote st :
  let st' := final (toggleServerConnection serverName connect remote st) in
  hasApiAccess st' = hasApiAccess st
  ∧ (hasApiAccess st = false → connectedServers st' = connectedServers st).
Proof.
  unfold toggleServerConnection.
  destruct (hasApiAccess st) eqn:Hapi; simpl.
  2: by rewrite hasApiAccess_notify, connected_notify.
  split; [|done].
  destruct (serverEntry st serverName); simpl; try done.
  destruct connect; simpl; [|by rewrite hasApiAccess_rerender, hasApiAccess_notify].
  destruct remote as [result|]; simpl; [|by rewrite hasApiAccess_notify].
  destruct (connect_success result); simpl;
    by rewrite hasApiAccess_rerender, hasApiAccess_notify.
Qed.

Lemma config_notify (m s : string) (st : state) : config (notify m s st) = config st.
Proof. unfold notify. by destruct (windowApp st). Qed.

(** The local disconnect, when the guard of [toggleServerConnection]
    passes. *)
Lemma disconnect_local serverName remote st cfg servers e :
  hasApiAccess st = true → serverEntry st serverName = Entry cfg servers e →
  let st' := final (toggleServerConnection serverName false remote st) in
  connectedServers st' = connectedServers st ∖ {[serverName]}
  ∧ requests st' = requests st ∧ config st' = config st
  ∧ hasApiAccess st' = hasApiAccess st.
Proof.
  intros Hapi He. unfold toggleServerConnection. rewrite Hapi, He. cbn [negb final].
  rewrite connected_rerender, requests_rerender, config_rerender,
    hasApiAccess_rerender.
  by rewrite connected_notify, requests_notify, config_notify, hasApiAccess_notify.
Qed.

Lemma serverEntry_config (a b : state) (serverName : string) :
  config a = config b → serverEntry a serverName = serverEntry b serverName.
Proof. unfold serverEntry. by intros ->. Qed.

(** One toggle of the status of a configured server, in a registry where a
    connected server implies API access: the state it ends in, and that it
    returns exactly when the list renders in that state. *)
Lemma toggleServerStatus_spec serverName st cfg servers e :
  serverEntry st serverName = Entry cfg servers e → typeof e = "object" →
  (serverName ∈ connectedServers st → hasApiAccess st = true) →
  let st' := final (toggleServerStatus serverName st) in
  ∃ cfg' servers' e',
    requests st' = requests st
    ∧ hasApiAccess st' = hasApiAccess st
    ∧ serverEntry st' serverName = Entry cfg' servers' e'
    ∧ truthy_opt (getProp e' "disabled") = negb (truthy_opt (getProp e "disabled"))
    ∧ connectedServers st'
      = (if truthy_opt (getProp e "disabled") then connectedServers st
         else connectedServers st ∖ {[serverName]})
    ∧ (toggleServerStatus serverName st = Done st' ↔ renderToolsList st' = true).
Proof.
  intros Hentry Hty Hapi.
  destruct (serverEntry_inv _ _ _ _ _ Hentry) as (Hc & Hs & He & Ht).
  destruct (set_disabled_object e (negb (truthy_opt (getProp e "disabled"))) Hty Ht)
    as (e' & Hset & Hty' & Ht' & Hd').
  cbn zeta. unfold toggleServerStatus. rewrite Hentry, Hset, Hd'.
  set (servers' := update_at servers serverName e').
  set (cfg' := update_at cfg "mcpServers" servers').
  set (st1 := saveConfig (set_config (Some cfg') st)).
  assert (serverEntry st1 serverName = Entry cfg' servers' e') as Hentry1.
  { apply serverEntry_found; [by unfold st1; rewrite config_saveConfig| | |exact Ht'].
    - eapply getProp_update_at; [exact Hs|]. by destruct (getProp_object _ _ _ He).
    - eapply getProp_update_at; [exact He|exact Hty]. }
  assert (connectedServers st1 = connectedServers st) as Hcs
    by (unfold st1; by rewrite connected_saveConfig).
  assert (hasApiAccess st1 = hasApiAccess st) as Hacc
    by (unfold st1; by rewrite hasApiAccess_saveConfig).
  assert (requests st1 = requests st) as Hreq
    by (unfold st1; by rewrite requests_saveConfig).
  match goal with |- context [renderToolsList ?x] => set (st2 := x) end.
  assert (requests st2 = requests st ∧ hasApiAccess st2 = hasApiAccess st
          ∧ serverEntry st2 serverName = Entry cfg' servers' e'
          ∧ connectedServers st2
            = (if truthy_opt (getProp e "disabled") then connectedServers st
               else connectedServers st ∖ {[serverName]}))
    as (Hreq2 & Hacc2 & Hentry2 & Hcs2).
  { unfold st2. destruct (truthy_opt (getProp e "disabled")); cbn [negb andb].
    - by rewrite Hreq, Hacc, Hcs, Hentry1.
    - case_bool_decide as Hin.
      + rewrite Hcs in Hin.
        destruct (disconnect_local serverName (Rejected EmptyString) st1 _ _ _
                    (eq_trans Hacc (Hapi Hin)) Hentry1) as (E1 & E2 & E3 & E4).
        rewrite E1, E2, E4, Hreq, Hacc, Hcs.
        by rewrite (serverEntry_config _ st1 _ E3), Hentry1.
      + rewrite Hreq, Hacc, Hcs, Hentry1. rewrite Hcs in Hin.
        repeat split; try done. apply set_eq. intros x.
        rewrite elem_of_difference, elem_of_singleton.
        split; [intros Hx; split; [exact Hx|by intros ->]|by intros [Hx _]]. }
  exists cfg', servers', e'.
  destruct (renderToolsList st2) eqn:Hrender; cbn [final].
  - rewrite requests_notify, hasApiAccess_notify, connected_notify.
    rewrite (serverEntry_config _ _ _ (config_notify _ _ _)).
    repeat split; try done. intros _.
    rewrite <- Hrender. apply renderToolsList_ext;
      [apply toolsList_notify|apply config_notify].
  - repeat split; try done. by rewrite Hrender.
Qed.

End Toggling.

(** ** The registry along a run *)

Section RegistryRuns.
Import JS App.

Lemma load_failed_frame message (t : Tools.state) :
  Tools.hasApiAccess (Tools.load_failed message t).2 = Tools.hasApiAccess t
  ∧ Tools.connectedServers (Tools.load_failed message t).2 = Tools.connectedServers t.
Proof.
  unfold Tools.load_failed. cbn [snd].
  destruct (Tools.windowApp t); by rewrite ?hasApiAccess_notify, ?connected_notify.
Qed.

Lemma loadConfigFromFile_frame parsed (t : Tools.state) :
  Tools.hasApiAccess (Tools.loadConfigFromFile parsed t).2 = Tools.hasApiAccess t
  ∧ Tools.connectedServers (Tools.loadConfigFromFile parsed t).2
    = Tools.connectedServers t.
Proof.
  unfold Tools.loadConfigFromFile.
  destruct parsed as [cfg|]; [|apply load_failed_frame].
  destruct (Tools.validateConfig cfg); cbn [negb]; [|apply load_failed_frame].
  destruct (Tools.renderToolsList _).
  - cbn [snd]. by rewrite hasApiAccess_notify, connected_notify,
                 hasApiAccess_saveConfig, connected_saveConfig.
  - destruct (load_failed_frame TypeError_message
                (Tools.saveConfig (Tools.set_config (Some cfg) t))) as [-> ->].
    by rewrite hasApiAccess_saveConfig, connected_saveConfig.
Qed.

Lemma loadSavedConfig_frame fetched (t : Tools.state) :
  Tools.hasApiAccess (Tools.loadSavedConfig fetched t) = Tools.hasApiAccess t
  ∧ Tools.connectedServers (Tools.loadSavedConfig fetched t) = Tools.connectedServers t.
Proof.
  assert (∀ x, Tools.hasApiAccess (Tools.load_stored x) = Tools.hasApiAccess x
               ∧ Tools.connectedServers (Tools.load_stored x) = Tools.connectedServers x)
    as Hstored.
  { intros x. unfold Tools.load_stored. by destruct (Tools.savedConfig x). }
  unfold Tools.loadSavedConfig.
  destruct fetched as [cfg|]; [|apply Hstored].
  destruct (Tools.validateConfig cfg); [|done].
  destruct (Tools.renderToolsList _).
  - by rewrite hasApiAccess_saveConfig, connected_saveConfig.
  - destruct (Hstored (Tools.saveConfig (Tools.set_config (Some cfg) t))) as [-> ->].
    by rewrite hasApiAccess_saveConfig, connected_saveConfig.
Qed.

Lemma disconnect_frame serverName remote (t : Tools.state) :
  let t' := final (Tools.toggleServerConnection serverName false remote t) in
  Tools.hasApiAccess t' = Tools.hasApiAccess t
  ∧ Tools.connectedServers t' ⊆ Tools.connectedServers t.
Proof.
  unfold Tools.toggleServerConnection.
  destruct (Tools.hasApiAccess t) eqn:Hapi; simpl.
  2: by rewrite hasApiAccess_notify, connected_notify.
  destruct (Tools.serverEntry t serverName); simpl; try done.
  rewrite hasApiAccess_rerender, connected_rerender.
  rewrite hasApiAccess_notify, connected_notify. simpl.
  split; [done|]. apply subseteq_difference_l. done.
Qed.

Lemma toggleServerStatus_frame serverName (t : Tools.state) :
  let t' := final (Tools.toggleServerStatus serverName t) in
  Tools.hasApiAccess t' = Tools.hasApiAccess t
  ∧ Tools.connectedServers t' ⊆ Tools.connectedServers t.
Proof.
  unfold Tools.toggleServerStatus.
  destruct (Tools.serverEntry t serverName) as [| |cfg servers e]; simpl; try done.
  destruct (Tools.set_disabled e _) as [e'|]; simpl; [|done].
  match goal with |- context [Tools.renderToolsList ?x] => set (t2 := x) end.
  assert (Tools.hasApiAccess t2 = Tools.hasApiAccess t
          ∧ Tools.connectedServers t2 ⊆ Tools.connectedServers t) as [Ha Hsub].
  { unfold t2. destruct (_ && _).
    - match goal with
      | |- context [final (Tools.toggleServerConnection ?n false ?rm ?s)] =>
          destruct (disconnect_frame n rm s) as [-> Hsub]
      end.
      rewrite hasApiAccess_saveConfig. split; [done|].
      etrans; [exact Hsub|]. by rewrite connected_saveConfig.
    - by rewrite hasApiAccess_saveConfig, connected_saveConfig. }
  destruct (Tools.renderToolsList t2); cbn [final];
    by rewrite ?hasApiAccess_notify, ?connected_notify.
Qed.

(** The registry has API access exactly when the API client is there, and
    without the client no server is ever connected. *)
Lemma registry_invariant (r : running) :
  reachable r →
  ∀ t, mcpTools (app r) = Some t →
       Tools.hasApiAccess t = mcpApi (app r)
       ∧ (mcpApi (app r) = false → Tools.connectedServers t = ∅).
Proof.
  induction 1 as [dom keys stored api tools Htools|r e _ IH].
  - intros t. simpl. destruct Htools as [->|(a & d & ->)]; [done|].
    intros [= <-]. done.
  - assert (∀ st', core st' = core (app r) → mcpTools st' = mcpTools (app r) →
              ∀ t, mcpTools st' = Some t →
                   Tools.hasApiAccess t = mcpApi st'
                   ∧ (mcpApi st' = false → Tools.connectedServers t = ∅)) as Hsame.
    { intros st' [= _ _ _ Hapi] Ht t. rewrite Ht, Hapi. apply IH. }
    assert (∀ f : Tools.state → Tools.state,
              (∀ t, Tools.hasApiAccess (f t) = Tools.hasApiAccess t
                    ∧ (Tools.hasApiAccess t = false →
                       Tools.connectedServers t = ∅ → Tools.connectedServers (f t) = ∅)) →
              ∀ t, mcpTools (app (on_tools f r)) = Some t →
                   Tools.hasApiAccess t = mcpApi (app (on_tools f r))
                   ∧ (mcpApi (app (on_tools f r)) = false → Tools.connectedServers t = ∅))
      as Htools.
    { intros f Hf t. simpl.
      destruct (mcpTools (app r)) as [t0|] eqn:Ht0; [|done]. intros [= <-].
      destruct (IH t0 eq_refl) as [Ha He]. destruct (Hf t0) as [-> Hf2].
      split; [exact Ha|]. intros Hno. apply Hf2; [congruence|auto]. }
    destruct e; cbn [react app pending].
    + apply Hsame; [apply set_userInput_core|done].
    + by apply Hsame.
    + by apply Hsame.
    + pose proof (sendMessage_core now (app r)) as Hs.
      destruct (sendMessage now (app r)) as [st' [query|]]; cbn [app].
      * destruct Hs as (_ & _ & _ & _ & Hapi & Ht). intros t. rewrite Ht, Hapi. apply IH.
      * destruct Hs as [[Hs|(_ & _ & _ & Hapi)] Ht]; [by apply Hsame|].
        intros t. rewrite Ht, Hapi. apply IH.
    + destruct (pending r) as [query|]; cbn [app]; [|exact IH].
      destruct (sendMessage_resume_frame query connected ai now (app r)) as (_ & Hapi & Ht).
      intros t. rewrite Ht, Hapi. apply IH.
    + intros t. pose proof (connectToMcpServers_core remote (app r)) as [= _ _ _ Hapi].
      rewrite Hapi.
      destruct (connectToMcpServers_tools remote (app r))
        as [->|(Hm & t0 & servers & Ht0 & ->)]; [apply IH|].
      intros [= <-]. destruct (IH t0 Ht0) as [Ha _]. rewrite Hm in *. done.
    + apply Hsame; apply loadChatHistory_frame.
    + apply Hsame; apply clearChat_frame.
    + apply Htools. intros t.
      destruct (loadConfigFromFile_frame parsed t) as [-> ->]. done.
    + apply Htools. intros t.
      destruct (loadSavedConfig_frame fetched t) as [-> ->]. done.
    + apply Htools. intros t.
      destruct (toggleServerStatus_frame serverName t) as [-> Hsub].
      split; [done|]. intros _ Hempty. rewrite Hempty in Hsub.
      apply set_eq. intros x. split; [apply Hsub|by intros ?%not_elem_of_empty].
    + apply Htools. intros t.
      destruct (toggleServerConnection_frame serverName connect remote t) as [-> Hsame'].
      split; [done|]. intros Hno Hempty. by rewrite Hsame'.
Qed.

(** C8: in a state the application can reach, toggling the status of a
    configured server sends nothing to the backend; when the server was
    enabled the toggle disables it and the connected set loses exactly its
    name, and when it was disabled the toggle enables it and the connected
    set stays as it was.  This is the state the call ends in, whether it
    returns or throws: it returns exactly when the list of servers renders
    in that state. *)
Theorem disable_disconnects_enable_keeps
    (r : running) (t : Tools.state) (serverName : string) (cfg servers e : json) :
  reachable r →
  mcpTools (app r) = Some t →
  Tools.serverEntry t serverName = Tools.Entry cfg servers e →
  typeof e = "object" →
  let t' := final (Tools.toggleServerStatus serverName t) in
  ∃ cfg' servers' e',
    Tools.requests t' = Tools.requests t
    ∧ Tools.serverEntry t' serverName = Tools.Entry cfg' servers' e'
    ∧ truthy_opt (getProp e' "disabled") = negb (truthy_opt (getProp e "disabled"))
    ∧ (truthy_opt (getProp e "disabled") = false →
         Tools.connectedServers t' = Tools.connectedServers t ∖ {[serverName]}
         ∧ (serverName ∉ Tools.connectedServers t')
         ∧ ∀ other, other ≠ serverName →
             (other ∈ Tools.connectedServers t' ↔ other ∈ Tools.connectedServers t))
    ∧ (truthy_opt (getProp e "disabled") = true →
         Tools.connectedServers t' = Tools.connectedServers t)
    ∧ (Tools.toggleServerStatus serverName t = Done t'
       ↔ Tools.renderToolsList t' = true).
Proof.
  intros Hr Ht Hentry Hty.
  destruct (registry_invariant r Hr t Ht) as [Hacc Hnone].
  destruct (toggleServerStatus_spec serverName t cfg servers e Hentry Hty)
    as (cfg' & servers' & e' & Hreq & _ & Hentry' & Hflag & Hcs & Hdone).
  { intros Hin. destruct (mcpApi (app r)); [done|].
    rewrite Hnone in Hin by done. set_solver. }
  exists cfg', servers', e'. cbn zeta. repeat split; try done.
  - rewrite Hcs, H. done.
  - rewrite Hcs, H. set_solver.
  - rewrite Hcs, H. set_solver.
  - rewrite Hcs, H. set_solver.
  - intros H. by rewrite Hcs, H.
  - apply Hdone.
  - apply Hdone.
Qed.

End RegistryRuns.

(** ** The theorems at concrete runs *)

Section Scenarios.
Import JS App.

(** A page with every widget, a key for the default provider, a model
    selected, a query typed and sent: a second click while the turn is in
    flight. *)
Lemma busy_submission_rejected_witness :
  let r := react (react (react (start (Page true true true true true)
                                  {["openai" := "sk-test"]} None true None)
                           (Selected "openai" "gpt-4o"))
                    (Typed "  list files here "))
             (SendClicked "2025-01-01T00:00:00.000Z") in
  isProcessing (app r) = true
  ∧ pending r = Some "list files here"
  ∧ chatHistory (app (react r (SendClicked "2025-01-01T00:00:01.000Z")))
    = [Message "user" "list files here" [] "2025-01-01T00:00:00.000Z"]
  ∧ notifications (app (react r (SendClicked "2025-01-01T00:00:01.000Z")))
    = [("Please wait for the current message to finish processing.", "warning")].
Proof.
  intros r.
  assert (reachable r) as Hr
    by (unfold r; repeat apply reachable_react; apply reachable_start; by left).
  destruct (busy_submission_rejected r "2025-01-01T00:00:01.000Z" Hr eq_refl)
    as (_ & _ & Hchat & _ & Hnote).
  split; [reflexivity|]. split; [reflexivity|]. split; [exact Hchat|exact Hnote].
Defined.

(** A stored transcript of two entries, the second one with a tool. *)
Lemma rehydration_doubles_history_witness :
  let saved := [Message "user" "list files here" [] "t0";
                Message "ai" "Here are your files."
                        [UsedTool "list_dir" "fs" (Some (JObj []))] "t1"] in
  let st := app (start (Page true true true true true) ∅ (Some saved) true None) in
  chatHistory (loadChatHistory (λ _, "t2") st)
  = [Message "user" "list files here" [] "t0";
     Message "ai" "Here are your files."
             [UsedTool "list_dir" "fs" (Some (JObj []))] "t1";
     Message "user" "list files here" [] "t2";
     Message "ai" "Here are your files." [] "t2"].
Proof.
  intros saved st.
  exact (proj1 (rehydration_doubles_history (λ _, "t2") st saved [] eq_refl eq_refl)).
Defined.

(** C10, as stated, fails when the configuration found at start-up gives a
    tool without a name: the configuration validates and the list of
    servers renders, but no message can be formatted, so that the replay
    stops at its first entry and the one stored entry is not doubled. *)
Lemma rehydration_stops_when_formatting_throws :
  let cfg := JObj [("mcpServers", JObj [("fs", JObj [("tools", JArr [JObj []] [])])])] in
  let saved := [Message "user" "list files here" [] "t0"] in
  let r := react (start (Page true true true true true) ∅ (Some saved) true
                    (Some (Tools.constructor false ∅)))
             (SavedConfigLoaded (Resolved cfg)) in
  Tools.validateConfig cfg = true
  ∧ Tools.config <$> mcpTools (app r) = Some (Some cfg)
  ∧ savedHistory (app r) = Some saved
  ∧ chatHistory (loadChatHistory (λ _, "t1") (app r)) = saved
  ∧ length (chatHistory (loadChatHistory (λ _, "t1") (app r))) ≠ (2 * length saved)%nat.
Proof. repeat split; try reflexivity. discriminate. Qed.

(** The registry after loading a configuration with the server [fs] and a
    connect-all reply that lists it: disabling [fs]. *)
Lemma disable_disconnects_enable_keeps_witness :
  let e := JObj [("tools", JArr [JStr "list_dir"] [])] in
  let servers := JObj [("fs", e)] in
  let cfg := JObj [("mcpServers", servers)] in
  let r := react (react (start (Page true true true true true) ∅ None true
                           (Some (Tools.constructor false ∅)))
                    (ConfigLoaded (Resolved cfg)))
             (ConnectAllSettled (Resolved (ConnectAllResult true "Connected" (Some ["fs"])))) in
  let t := Tools.State (Some cfg) {["fs"]} true false (Some cfg) ∅ ∅ [] [] [] true in
  mcpTools (app r) = Some t
  ∧ Tools.connectedServers (final (Tools.toggleServerStatus "fs" t))
    = Tools.connectedServers t ∖ {["fs"]}
  ∧ Tools.requests (final (Tools.toggleServerStatus "fs" t)) = [].
Proof.
  intros e servers cfg r t.
  assert (reachable r) as Hr.
  { unfold r. repeat apply reachable_react. apply reachable_start. right. eauto. }
  assert (mcpTools (app r) = Some t) as Ht by (vm_compute; reflexivity).
  split; [exact Ht|].
  destruct (disable_disconnects_enable_keeps r t "fs" cfg servers e Hr Ht eq_refl eq_refl)
    as (_ & _ & _ & Hreq & _ & _ & Hdis & _).
  split; [exact (proj1 (Hdis eq_refl))|exact Hreq].
Defined.

End Scenarios.

(** * Further properties *)

(** ** What the orchestration reply is folded into *)

Section Folding.
Import JS App.




(** Whatever the reply, the content committed to the transcript is not the
    empty string. *)
Theorem processed_response_never_empty
    (result : option ai_result) (processedResponse : string) (used : list used_tool) :
  processAiWithToolsResponse result = Some (processedResponse, used) →
  processedResponse ≠ EmptyString.
Proof.
  assert (∀ a b, b ≠ EmptyString → or_str a b ≠ EmptyString) as Hor
    by (intros [|] b; simpl; done).
  unfold processAiWithToolsResponse. destruct result as [r|]; [|done].
  destruct (steps r) as [ss|].
  - destruct (process_steps (EmptyString, []) ss) as [[formatted used']|]; [|done].
    intros [= <- _]. apply Hor, Hor. done.
  - intros [= <- _]. apply Hor. done.
Qed.

Lemma processed_response_never_empty_witness :
  ∃ processedResponse used,
    processAiWithToolsResponse (Some (AiResult (Some EmptyString) (Some [])))
    = Some (processedResponse, used)
    ∧ processedResponse ≠ EmptyString.
Proof.
  exists "No response received", []. split; [reflexivity|].
  apply (processed_response_never_empty
           (Some (AiResult (Some EmptyString) (Some []))) _ []).
  reflexivity.
Defined.

End Folding.

Section UsedTools.
Import JS App.

(** What one step does to the list of used tools. *)
Lemma process_step_used (formatted formatted' : string)
    (recorded recorded' : list used_tool) (s : step) :
  process_step (formatted, recorded) s = Some (formatted', recorded') →
  (recorded' = recorded
   ∧ (type s = "tool_call" → ∃ id, tool s = Some id ∧ some_named id recorded = true))
  ∨ (∃ id, type s = "tool_call" ∧ tool s = Some id
           ∧ some_named id recorded = false
           ∧ recorded' = recorded ++ [UsedTool (resolve id).2 (resolve id).1 (args s)]).
Proof.
  unfold process_step.
  destruct (String.eqb_spec (type s) "response") as [E|_].
  { intros [= _ <-]. left. split; [done|]. rewrite E. discriminate. }
  destruct (String.eqb_spec (type s) "tool_call") as [E|Hne].
  - destruct (tool s) as [id|]; [|done].
    destruct (some_named id recorded) eqn:Hn; simpl.
    + intros [= _ <-]. left. split; [done|]. eauto.
    + destruct (resolve id) as [sv tn] eqn:R. intros [= _ <-].
      right. exists id. by rewrite R.
  - destruct (String.eqb (type s) "tool_result"); intros [= _ <-]; by left.
Qed.

Lemma process_steps_used (ss : list step) :
  ∀ (acc acc' : string * list used_tool),
    process_steps acc ss = Some acc' →
    acc.2 `prefix_of` acc'.2
    ∧ (∀ t, t ∈ acc'.2 →
         t ∈ acc.2
         ∨ ∃ s id, s ∈ ss ∧ type s = "tool_call" ∧ tool s = Some id
                   ∧ resolve id = (server t, name t) ∧ tool_args t = args s)
    ∧ (∀ s id, s ∈ ss → type s = "tool_call" → tool s = Some id →
         (∃ t, t ∈ acc'.2 ∧ resolve id = (server t, name t) ∧ tool_args t = args s)
         ∨ id ∈ name <$> acc'.2).
Proof.
  induction ss as [|s ss IH]; intros [formatted recorded] acc'; cbn [process_steps].
  - intros [= <-]. split; [done|]. split; [by left|]. by intros s id ?%elem_of_nil.
  - destruct (process_step (formatted, recorded) s) as [[formatted1 recorded1]|] eqn:E;
      [|done].
    intros H. destruct (IH _ _ H) as (Hpre & Hsound & Hcomplete). cbn [fst snd] in *.
    apply process_step_used in E.
    assert (recorded `prefix_of` recorded1) as Hstep
      by (destruct E as [[-> _]|(id & _ & _ & _ & ->)]; [done|by apply prefix_app_r]).
    split; [by etrans|]. split.
    + intros t Ht. destruct (Hsound t Ht) as [Hin|(s' & id & Hin & Hrest)].
      * destruct E as [[-> _]|(id & Hty & Hid & _ & ->)]; [by left|].
        apply elem_of_app in Hin as [Hin|Hin]; [by left|].
        apply list_elem_of_singleton in Hin as ->.
        right. exists s, id. split; [by left|]. repeat split; try done.
        simpl. by destruct (resolve id).
      * right. exists s', id. split; [by right|exact Hrest].
    + intros s' id [->|Hin]%elem_of_cons Hty Hid; [|by eapply Hcomplete].
      destruct E as [[-> Hskip]|(id' & _ & Hid' & _ & ->)].
      * destruct (Hskip Hty) as (id' & Hid' & Hn). right.
        assert (id' = id) as -> by congruence.
        destruct (some_named id recorded) eqn:Hn'; [|done].
        apply not_false_iff_true in Hn'. rewrite some_named_false in Hn'.
        destruct (decide (id ∈ name <$> recorded)) as [Hin|Hout]; [|done].
        destruct Hpre as [k' ->]. rewrite fmap_app, elem_of_app. by left.
      * assert (id' = id) as -> by congruence. left.
        exists (UsedTool (resolve id).2 (resolve id).1 (args s)).
        split; [|simpl; by destruct (resolve id)].
        eapply elem_of_prefix; [|exact Hpre]. apply elem_of_app. right. by left.
Qed.




(** Every used tool comes from a tool-call step of the reply, under the
    server and name its identifier resolves to and with that step's
    arguments; and no tool-call step is left out unless its identifier is
    the name of a tool that is recorded. *)
Theorem used_tools_come_from_tool_calls
    (r : ai_result) (ss : list step) (processedResponse : string)
    (used : list used_tool) :
  steps r = Some ss →
  processAiWithToolsResponse (Some r) = Some (processedResponse, used) →
  (∀ t, t ∈ used →
     ∃ s id, s ∈ ss ∧ type s = "tool_call" ∧ tool s = Some id
             ∧ resolve id = (server t, name t) ∧ tool_args t = args s)
  ∧ (∀ s id, s ∈ ss → type s = "tool_call" → tool s = Some id →
       (∃ t, t ∈ used ∧ resolve id = (server t, name t) ∧ tool_args t = args s)
       ∨ id ∈ name <$> used).
Proof.
  intros Hs. unfold processAiWithToolsResponse. rewrite Hs.
  destruct (process_steps (EmptyString, []) ss) as [[formatted used']|] eqn:E; [|done].
  intros [= _ <-].
  destruct (process_steps_used ss _ _ E) as (_ & Hsound & Hcomplete). simpl in *.
  split; [|exact Hcomplete].
  intros t Ht. destruct (Hsound t Ht) as [?%elem_of_nil|H]; [done|exact H].
Qed.

Lemma used_tools_come_from_tool_calls_witness :
  let search := Step "tool_call" None (Some "web_search") (Some (JObj [])) in
  let lookup := Step "tool_call" None (Some "search") None in
  let t := UsedTool "search" "web" (Some (JObj [])) in
  ∃ s id, s ∈ [search; lookup] ∧ type s = "tool_call" ∧ tool s = Some id
          ∧ resolve id = (server t, name t) ∧ tool_args t = args s.
Proof.
  intros search lookup t.
  apply (proj1 (used_tools_come_from_tool_calls
                  (AiResult None (Some [search; lookup])) [search; lookup]
                  _ [t] eq_refl eq_refl)).
  apply list_elem_of_here.
Defined.

(** When no tool identifier of the reply has an underscore, no tool name
    occurs twice among the used tools. *)
Theorem bare_identifiers_recorded_once
    (r : ai_result) (ss : list step) (processedResponse : string)
    (used : list used_tool) :
  steps r = Some ss →
  (∀ s id, s ∈ ss → tool s = Some id → includes "_" id = false) →
  processAiWithToolsResponse (Some r) = Some (processedResponse, used) →
  NoDup (name <$> used).
Proof.
  intros Hs Hbare. unfold processAiWithToolsResponse. rewrite Hs.
  destruct (process_steps (EmptyString, []) ss) as [[formatted used']|] eqn:E; [|done].
  intros [= _ <-].
  apply (bare_tools_recorded_once ss (EmptyString, []) (formatted, used') Hbare);
    [apply NoDup_nil_2|exact E].
Qed.

Lemma bare_identifiers_recorded_once_witness :
  let call := Step "tool_call" None (Some "search") None in
  NoDup (name <$> [UsedTool "search" EmptyString None]).
Proof.
  intros call.
  eapply (bare_identifiers_recorded_once
            (AiResult None (Some [call; call; call])) [call; call; call]
            _ [UsedTool "search" EmptyString None] eq_refl).
  - intros s id Hin Hid.
    repeat (apply elem_of_cons in Hin as [->|Hin]; [by injection Hid as <-|]).
    by apply elem_of_nil in Hin.
  - reflexivity.
Defined.

(** Steps of a type other than [response], [tool_call] and [tool_result]
    leave no trace: the reply without them gives the same outcome. *)
Theorem unknown_steps_are_ignored (resp : option string) (ss : list step) :
  processAiWithToolsResponse (Some (AiResult resp (Some ss)))
  = processAiWithToolsResponse
      (Some (AiResult resp
               (Some (filter (λ s, type s = "response" ∨ type s = "tool_call"
                                   ∨ type s = "tool_result") ss)))).
Proof.
  unfold processAiWithToolsResponse. simpl.
  assert (∀ acc, process_steps acc ss
                 = process_steps acc
                     (filter (λ s, type s = "response" ∨ type s = "tool_call"
                                   ∨ type s = "tool_result") ss)) as ->; [|done].
  induction ss as [|s ss IH]; intros acc; [done|].
  rewrite filter_cons. case_decide as Hk; simpl.
  - destruct (process_step acc s); [apply IH|done].
  - assert (process_step acc s = Some acc) as ->; [|apply IH].
    destruct acc as [formatted recorded]. unfold process_step.
    destruct (String.eqb_spec (type s) "response"); [tauto|].
    destruct (String.eqb_spec (type s) "tool_call"); [tauto|].
    destruct (String.eqb_spec (type s) "tool_result"); [tauto|done].
Qed.

End UsedTools.

(** ** One turn, from the click to the committed answer *)

Section Turns.
Import JS App.

(** What a started turn has done by its first suspension: the query is the
    trimmed input, the flag is set and the button disabled, the input box is
    emptied, the connect-all request is on its way when the API client is
    there, and the user's entry is in the transcript if the page has a chat
    container (and only then).  On such a page a turn only starts when the
    message could be formatted. *)
Theorem started_turn_effect (now : string) (st st' : state) (query : string) :
  sendMessage now st = (st', Some query) →
  (∃ value, userInput st = Some value ∧ query = trim value)
  ∧ isProcessing st' = true
  ∧ userInput st' = Some EmptyString
  ∧ sendButton st' = Some true
  ∧ requests st' = (if mcpApi st then requests st ++ [ConnectAll] else requests st)
  ∧ chatHistory st'
    = match chatContainer st with
      | Some _ => chatHistory st ++ [Message "user" query [] now]
      | None => chatHistory st
      end
  ∧ (is_Some (chatContainer st) → formatMessage st = true).
Proof.
  unfold sendMessage.
  destruct (userInput st) as [value|] eqn:Hu; [|by intros [=]].
  destruct (sendButton st) as [disabled|] eqn:Hb; [|by intros [=]].
  destruct (isProcessing st); [by intros [=]|].
  destruct (String.eqb (trim value) EmptyString); [by intros [=]|].
  destruct (_ || _); [by intros [=]|]. destruct (_ && _); [by intros [=]|].
  remember (trim value) as message eqn:Hm.
  set (st1 := set_userInput EmptyString (set_processing true st)).
  unfold addMessageToChat.
  change (chatContainer st1) with (chatContainer st).
  rewrite (formatMessage_ext st1 st) by done.
  destruct (chatContainer st) as [rendered|] eqn:Hc;
    [destruct (formatMessage st) eqn:Hf; [|by intros [=]]|];
    intros [= <- <-]; (split; [by exists value|]);
    destruct (mcpApi st) eqn:Hapi;
    cbn; rewrite ?Hu, ?Hb, ?Hapi; cbn; rewrite ?Hu, ?Hb; cbn;
    repeat split; try done; by intros [? [=]].
Qed.

Lemma started_turn_effect_witness :
  let st := app (react (react (start (Page true true true false true) ∅ None false None)
                          (Selected "ollama" "llama3"))
                   (Typed " hello ")) in
  chatHistory (sendMessage "t0" st).1 = [] ∧ isProcessing (sendMessage "t0" st).1 = true.
Proof.
  intros st.
  destruct (started_turn_effect "t0" st (sendMessage "t0" st).1 "hello" eq_refl)
    as (_ & Hp & _ & _ & _ & Hh & _).
  split; [exact Hh|exact Hp].
Defined.

(** The [catch] block: the error message is the one more entry of the
    transcript, and it is stored, unless it cannot be formatted. *)
Lemma turn_failed_effect (error now : string) (st : state) :
  let st' := turn_failed error now st in
  widgets st' = widgets st
  ∧ requests st' = requests st
  ∧ match chatContainer st with
    | Some _ =>
        if formatMessage st then
          ∃ m, chatHistory st' = chatHistory st ++ [m] ∧ role m = "ai"
               ∧ timestamp m = now
               ∧ savedHistory st' = Some (chatHistory st')
        else chatHistory st' = chatHistory st ∧ savedHistory st' = savedHistory st
    | None =>
        chatHistory st' = chatHistory st
        ∧ savedHistory st' = Some (chatHistory st)
    end.
Proof.
  cbn zeta. unfold turn_failed, addMessageToChat.
  destruct (chatContainer st) as [rendered|] eqn:Hc;
    [destruct (formatMessage st) eqn:Hf|]; cbn; rewrite ?Hc, ?Hf; eauto 10.
Qed.

(** The end of the [try] block, likewise. *)
Lemma turn_answered_effect (content : string) (used : list used_tool)
    (now : string) (st : state) :
  let st' := turn_answered content used now st in
  widgets st' = widgets st
  ∧ requests st' = requests st
  ∧ match chatContainer st with
    | Some _ =>
        if formatMessage st then
          ∃ m, chatHistory st' = chatHistory st ++ [m] ∧ role m = "ai"
               ∧ timestamp m = now
               ∧ savedHistory st' = Some (chatHistory st')
        else chatHistory st' = chatHistory st ∧ savedHistory st' = savedHistory st
    | None =>
        chatHistory st' = chatHistory st
        ∧ savedHistory st' = Some (chatHistory st)
    end.
Proof.
  cbn zeta. unfold turn_answered, addMessageToChat.
  destruct (chatContainer st) as [rendered|] eqn:Hc;
    [destruct (formatMessage st) eqn:Hf|]; cbn; rewrite ?Hc, ?Hf; eauto 10.
  pose proof (turn_failed_effect TypeError_message now st) as H.
  cbn zeta in H. by rewrite Hc, Hf in H.
Qed.

Lemma resume_effect (query : string) (connected : settled connect_all_result)
    (ai : settled (option ai_result)) (now : string) (st : state) :
  let st' := sendMessage_resume query connected ai now st in
  isProcessing st' = false
  ∧ sendButton st' = (λ _, false) <$> sendButton st
  ∧ processingIndicator st' = (λ _, false) <$> processingIndicator st
  ∧ match chatContainer st with
    | Some _ =>
        if formatMessage st then
          ∃ m, chatHistory st' = chatHistory st ++ [m] ∧ role m = "ai"
               ∧ timestamp m = now
               ∧ savedHistory st' = Some (chatHistory st')
        else chatHistory st' = chatHistory st ∧ savedHistory st' = savedHistory st
    | None =>
        chatHistory st' = chatHistory st
        ∧ savedHistory st' = Some (chatHistory st)
    end.
Proof.
  assert (∀ x : state,
            widgets x = widgets st →
            isProcessing (turn_finally x) = false
            ∧ sendButton (turn_finally x) = (λ _, false) <$> sendButton st
            ∧ processingIndicator (turn_finally x)
              = (λ _, false) <$> processingIndicator st) as Hfinally.
  { intros x [= _ Hb Hi]. cbn. by rewrite Hb, Hi. }
  assert (∀ x : state, chatHistory (turn_finally x) = chatHistory x
                       ∧ savedHistory (turn_finally x) = savedHistory x) as Hkeep
    by done.
  cbn zeta. unfold sendMessage_resume.
  set (st1 := send (ProcessWithAI query) st).
  assert (∀ x : state,
            widgets x = widgets st →
            match chatContainer st with
            | Some _ =>
                if formatMessage st then
                  ∃ m, chatHistory x = chatHistory st ++ [m] ∧ role m = "ai"
                       ∧ timestamp m = now
                       ∧ savedHistory x = Some (chatHistory x)
                else chatHistory x = chatHistory st ∧ savedHistory x = savedHistory st
            | None =>
                chatHistory x = chatHistory st
                ∧ savedHistory x = Some (chatHistory st)
            end →
            isProcessing (turn_finally x) = false
            ∧ sendButton (turn_finally x) = (λ _, false) <$> sendButton st
            ∧ processingIndicator (turn_finally x)
              = (λ _, false) <$> processingIndicator st
            ∧ match chatContainer st with
              | Some _ =>
                  if formatMessage st then
                    ∃ m, chatHistory (turn_finally x) = chatHistory st ++ [m]
                         ∧ role m = "ai" ∧ timestamp m = now
                         ∧ savedHistory (turn_finally x)
                           = Some (chatHistory (turn_finally x))
                  else chatHistory (turn_finally x) = chatHistory st
                       ∧ savedHistory (turn_finally x) = savedHistory st
              | None =>
                  chatHistory (turn_finally x) = chatHistory st
                  ∧ savedHistory (turn_finally x) = Some (chatHistory st)
              end) as Hend.
  { intros x Hw Hx. destruct (Hfinally x Hw) as (-> & -> & ->).
    repeat split. exact Hx. }
  destruct (mcpApi st) eqn:Hapi.
  - destruct connected as [?|error].
    2: { destruct (turn_failed_effect error now st) as (Hw & _ & H). by apply Hend. }
    destruct ai as [result|error].
    2: { destruct (turn_failed_effect error now st1) as (Hw & _ & H). by apply Hend. }
    destruct (processAiWithToolsResponse result) as [[p used]|].
    + destruct (turn_answered_effect p used now st1) as (Hw & _ & H). by apply Hend.
    + destruct (turn_failed_effect "TypeError" now st1) as (Hw & _ & H). by apply Hend.
  - match goal with |- context [turn_answered ?c [] now st] =>
      destruct (turn_answered_effect c [] now st) as (Hw & _ & H) end.
    by apply Hend.
Qed.

(** However the requests of a turn settle, and also when the reply makes
    the processing throw, the turn ends idle with the button enabled.  On a
    page with a chat container, when the answer can be formatted the
    transcript has exactly one more entry, from the assistant, which is the
    last one stored; when formatting throws, nothing is added and nothing
    is stored. *)
Theorem turn_always_ends (query : string) (connected : settled connect_all_result)
    (ai : settled (option ai_result)) (now : string) (st : state) :
  let st' := sendMessage_resume query connected ai now st in
  isProcessing st' = false
  ∧ sendButton st' = (λ _, false) <$> sendButton st
  ∧ processingIndicator st' = (λ _, false) <$> processingIndicator st
  ∧ match chatContainer st with
    | Some _ =>
        if formatMessage st then
          ∃ m, chatHistory st' = chatHistory st ++ [m] ∧ role m = "ai"
               ∧ timestamp m = now
               ∧ savedHistory st' = Some (chatHistory st')
        else chatHistory st' = chatHistory st ∧ savedHistory st' = savedHistory st
    | None =>
        chatHistory st' = chatHistory st
        ∧ savedHistory st' = Some (chatHistory st)
    end.
Proof. exact (resume_effect query connected ai now st). Qed.

End Turns.

(** ** What holds along every run *)

Section AlongRuns.
Import JS App.

Lemma widgets_addMessageToChat role content used now st :
  widgets (final (addMessageToChat role content used now st)) = widgets st
  ∧ chatHistory st
    `prefix_of` chatHistory (final (addMessageToChat role content used now st)).
Proof.
  unfold addMessageToChat. destruct (chatContainer st); [|done].
  destruct (formatMessage st); [|done].
  split; [done|]. by apply prefix_app_r.
Qed.

Lemma widgets_forEach_replay (nows : nat → string) (remaining : nat) :
  ∀ k st, widgets (final (forEach_replay remaining k nows st)) = widgets st.
Proof.
  induction remaining as [|remaining IH]; intros k st; cbn [forEach_replay]; [done|].
  destruct (chatHistory st !! k) as [m|]; [|apply IH].
  pose proof (widgets_addMessageToChat (role m) (text m) [] (nows k) st) as [Hw _].
  destruct (addMessageToChat (role m) (text m) [] (nows k) st) as [st'|st'];
    cbn [final] in *; [|done].
  by rewrite IH.
Qed.

Lemma widgets_loadChatHistory nows st : widgets (loadChatHistory nows st) = widgets st.
Proof.
  unfold loadChatHistory. destruct (chatContainer st); [|done].
  destruct (savedHistory st); [|done]. by rewrite widgets_forEach_replay.
Qed.

Lemma widgets_connectToMcpServers remote st :
  widgets (connectToMcpServers remote st) = widgets st
  ∧ chatHistory (connectToMcpServers remote st) = chatHistory st.
Proof.
  unfold connectToMcpServers.
  destruct (mcpApi st); [|done]. destruct remote as [result|]; [|done].
  destruct (all_success result); [|done]. cbn [negb].
  destruct (mcpTools st) as [t|] eqn:Ht, (all_servers result) as [servers|];
    cbn; rewrite ?Ht; unfold from_option; try case_match; done.
Qed.

(** What [sendMessage] does to the flag, the widgets and the transcript. *)
Lemma widgets_sendMessage now st :
  match sendMessage now st with
  | (st', Some _) =>
      widgets st' = (true, Some true, (λ _, true) <$> processingIndicator st)
  | (st', None) =>
      widgets st' = widgets st
      ∨ widgets st' = (true, Some true, (λ _, true) <$> processingIndicator st)
  end
  ∧ chatHistory st `prefix_of` chatHistory (sendMessage now st).1.
Proof.
  unfold sendMessage.
  destruct (userInput st) as [value|] eqn:Hu; [|by split; [left|]].
  destruct (sendButton st) as [disabled|] eqn:Hb; [|by split; [left|]].
  destruct (isProcessing st); [by split; [left|]|].
  destruct (String.eqb (trim value) EmptyString); [by split; [left|]|].
  destruct (_ || _); [by split; [left|]|]. destruct (_ && _); [by split; [left|]|].
  generalize (trim value). intros message.
  set (st1 := set_userInput EmptyString (set_processing true st)).
  assert (widgets st1 = (true, Some true, (λ _, true) <$> processingIndicator st))
    as Hw1 by (unfold st1, widgets; cbn; by rewrite Hb).
  pose proof (widgets_addMessageToChat "user" message [] now st1) as [Hw Hp].
  change (chatHistory st1) with (chatHistory st) in Hp.
  destruct (addMessageToChat "user" message [] now st1) as [st2|st2];
    cbn [final fst] in *.
  - split; [|by destruct (mcpApi st2)].
    rewrite <- Hw1, <- Hw. by destruct (mcpApi st2).
  - split; [right; congruence|done].
Qed.

(** In every state the application can reach, the send button, when the
    page has one, is disabled exactly while a turn is in progress, and the
    processing indicator, when the page has one, is shown exactly then. *)
Theorem send_button_tracks_processing (r : running) :
  reachable r →
  (∀ disabled, sendButton (app r) = Some disabled → disabled = isProcessing (app r))
  ∧ (∀ shown, processingIndicator (app r) = Some shown → shown = isProcessing (app r)).
Proof.
  induction 1 as [dom keys stored api tools _|r e _ IH].
  - cbn. destruct (page_sendButton dom), (page_processingIndicator dom);
      split; intros ? [=]; done.
  - assert (∀ st', widgets st' = widgets (app r) →
              (∀ disabled, sendButton st' = Some disabled → disabled = isProcessing st')
              ∧ (∀ shown, processingIndicator st' = Some shown → shown = isProcessing st'))
      as Hsame.
    { intros st' Hw. unfold widgets in Hw. injection Hw as -> -> ->. exact IH. }
    assert (∀ st', widgets st'
                   = (true, Some true, (λ _, true) <$> processingIndicator (app r)) →
              (∀ disabled, sendButton st' = Some disabled → disabled = isProcessing st')
              ∧ (∀ shown, processingIndicator st' = Some shown → shown = isProcessing st'))
      as Hset.
    { intros st' Hw. injection Hw as -> -> ->. split; [by intros ? [= <-]|].
      destruct (processingIndicator (app r)); by intros ? [= <-]. }
    destruct e; cbn [react app pending on_tools]; try (apply Hsame; done).
    + destruct (widgets_sendMessage now (app r)) as [Hw _].
      destruct (sendMessage now (app r)) as [st' [query|]]; cbn [app].
      * by apply Hset.
      * destruct Hw as [Hw|Hw]; [by apply Hsame|by apply Hset].
    + destruct (pending r) as [query|]; cbn [app]; [|exact IH].
      destruct (resume_effect query connected ai now (app r)) as (-> & -> & -> & _).
      destruct IH as [_ _].
      destruct (sendButton (app r)), (processingIndicator (app r));
        split; intros ? [= <-]; done.
    + apply Hsame, widgets_connectToMcpServers.
    + apply Hsame, widgets_loadChatHistory.
    + apply Hsame. unfold clearChat. by destruct (chatContainer (app r)), confirmed.
Qed.

Lemma send_button_tracks_processing_witness :
  let r := react (react (react (start (Page true true true true true)
                                  ∅ None true None)
                           (Selected "ollama" "llama3"))
                    (Typed "hello"))
             (SendClicked "t0") in
  sendButton (app r) = Some true ∧ isProcessing (app r) = true.
Proof.
  intros r.
  assert (reachable r) as Hr
    by (unfold r; repeat apply reachable_react; apply reachable_start; by left).
  split; [|reflexivity].
  rewrite (proj1 (send_button_tracks_processing r Hr) true eq_refl). reflexivity.
Defined.

(** The transcript only grows at its end, whatever happens, except when the
    chat is cleared or the stored history is loaded. *)
Theorem transcript_is_append_only (r : running) (e : event) :
  (∀ confirmed, e ≠ ChatCleared confirmed) →
  (∀ nows, e ≠ HistoryLoaded nows) →
  chatHistory (app r) `prefix_of` chatHistory (app (react r e)).
Proof.
  intros Hclear Hload.
  destruct e; cbn [react app pending on_tools]; try done.
  - pose proof (widgets_sendMessage now (app r)) as [_ Hp].
    by destruct (sendMessage now (app r)) as [st' [query|]].
  - destruct (pending r) as [query|]; [|done]. cbn [app].
    pose proof (resume_effect query connected ai now (app r)) as (_ & _ & _ & H).
    destruct (chatContainer (app r)); [destruct (formatMessage (app r))|].
    + destruct H as (m & -> & _). by apply prefix_app_r.
    + by destruct H as [-> _].
    + by destruct H as [-> _].
  - by rewrite (proj2 (widgets_connectToMcpServers remote (app r))).
  - by destruct (Hload nows).
  - by destruct (Hclear confirmed).
Qed.

Lemma transcript_is_append_only_witness :
  let r := react (react (react (start (Page true true true true true)
                                  ∅ None true None)
                           (Selected "ollama" "llama3"))
                    (Typed "hello"))
             (SendClicked "t0") in
  chatHistory (app r)
  `prefix_of` chatHistory (app (react r (TurnSettled (Rejected "offline")
                                           (Rejected "offline") "t1"))).
Proof.
  intros r. apply transcript_is_append_only; discriminate.
Defined.

(** With the flag set and no turn in flight, nothing that can happen
    resets the flag. *)
Lemma busy_without_turn_stays (r : running) (e : event) :
  isProcessing (app r) = true → pending r = None →
  isProcessing (app (react r e)) = true ∧ pending (react r e) = None.
Proof.
  intros Hp Hq.
  assert (∀ st', core st' = core (app r) → isProcessing st' = true) as Hsame
    by (by intros st' [= -> _ _ _]).
  destruct e; cbn [react app pending on_tools]; rewrite ?Hq; try done.
  - unfold sendMessage. rewrite Hp.
    by destruct (userInput (app r)), (sendButton (app r)).
  - split; [|done]. apply Hsame, connectToMcpServers_core.
  - split; [|done]. apply Hsame, loadChatHistory_frame.
  - split; [|done]. apply Hsame, clearChat_frame.
Qed.

(** A click on send that cannot format the user's message throws after it
    has set the flag: nothing is added to the transcript and no request is
    sent, and the flag stays set whatever happens afterwards, so that every
    later click finds a turn in progress. *)
Theorem formatting_error_blocks_later_turns
    (r : running) (now : string) (es : list event) :
  reachable r →
  isProcessing (app r) = false →
  (sendMessage now (app r)).2 = None →
  isProcessing (sendMessage now (app r)).1 = true →
  formatMessage (app r) = false
  ∧ chatHistory (sendMessage now (app r)).1 = chatHistory (app r)
  ∧ requests (sendMessage now (app r)).1 = requests (app r)
  ∧ isProcessing (app (foldl react (react r (SendClicked now)) es)) = true
  ∧ pending (foldl react (react r (SendClicked now)) es) = None.
Proof.
  intros Hr Hidle Hnone Hbusy.
  assert (pending r = None) as Hq.
  { destruct (processing_invariant r Hr) as [_ H].
    destruct (pending r); [|done]. rewrite H in Hidle by done. done. }
  assert (formatMessage (app r) = false
          ∧ chatHistory (sendMessage now (app r)).1 = chatHistory (app r)
          ∧ requests (sendMessage now (app r)).1 = requests (app r)) as Hthrew.
  { revert Hnone Hbusy. unfold sendMessage. rewrite Hidle.
    destruct (userInput (app r)) as [value|] eqn:Hu; cbn [fst snd]; [|congruence].
    destruct (sendButton (app r)) as [disabled|] eqn:Hb; cbn [fst snd]; [|congruence].
    destruct (String.eqb (trim value) EmptyString); cbn [fst snd]; [congruence|].
    destruct (_ || _); cbn [fst snd]; [cbn; congruence|].
    destruct (_ && _); cbn [fst snd]; [cbn; congruence|].
    generalize (trim value). intros message.
    set (st1 := set_userInput EmptyString (set_processing true (app r))).
    unfold addMessageToChat.
    change (chatContainer st1) with (chatContainer (app r)).
    rewrite (formatMessage_ext st1 (app r)) by done.
    destruct (chatContainer (app r)); [destruct (formatMessage (app r))|];
      cbn [fst snd]; try done. }
  destruct Hthrew as (Hf & Hc & Hreq). repeat split; try done.
  all: assert (isProcessing (app (react r (SendClicked now))) = true
               ∧ pending (react r (SendClicked now)) = None) as Hstart
         by (cbn [react]; destruct (sendMessage now (app r)) as [st' [q|]];
             cbn [fst snd app pending] in *; done).
  all: revert Hstart; generalize (react r (SendClicked now)); clear.
  all: induction es as [|e es IH]; intros r [Hp Hq]; cbn [foldl]; [done|].
  all: by apply IH, busy_without_turn_stays.
Qed.

(** A registry whose configuration gives a tool without a name: the click
    throws, the turn that settles later finds nothing to end, and the next
    click is turned away. *)
Lemma formatting_error_blocks_later_turns_witness :
  let cfg := JObj [("mcpServers", JObj [("fs", JObj [("tools", JArr [JObj []] [])])])] in
  let r := react (react (react (start (Page true true true true true) ∅ None true
                                  (Some (Tools.constructor false ∅)))
                           (ConfigLoaded (Resolved cfg)))
                    (Selected "ollama" "llama3"))
             (Typed "hello") in
  let r' := foldl react (react r (SendClicked "t0"))
              [TurnSettled (Rejected "offline") (Rejected "offline") "t1";
               SendClicked "t2"] in
  formatMessage (app r) = false
  ∧ chatHistory (app (react r (SendClicked "t0"))) = []
  ∧ isProcessing (app r') = true
  ∧ notifications (app r')
    = [("Please wait for the current message to finish processing.", "warning")].
Proof.
  intros cfg r r'.
  assert (reachable r) as Hr.
  { unfold r. repeat apply reachable_react. apply reachable_start. right. eauto. }
  destruct (formatting_error_blocks_later_turns r "t0"
              [TurnSettled (Rejected "offline") (Rejected "offline") "t1";
               SendClicked "t2"] Hr eq_refl eq_refl eq_refl)
    as (Hf & Hc & _ & Hp & _).
  split; [exact Hf|]. split; [exact Hc|]. split; [exact Hp|reflexivity].
Defined.

End AlongRuns.

(** ** The connect-all reply and the registry *)

Section ConnectAllEffect.
Import JS App.

Lemma connectToMcpServers_effect
    (remote : settled connect_all_result) (st : state) :
  let st' := connectToMcpServers remote st in
  requests st' = (if mcpApi st then requests st ++ [ConnectAll] else requests st)
  ∧ chatHistory st' = chatHistory st
  ∧ match mcpTools st with
    | None => mcpTools st' = None
    | Some t =>
        ∃ t', mcpTools st' = Some t'
          ∧ Tools.config t' = Tools.config t
          ∧ Tools.requests t' = Tools.requests t
          ∧ Tools.connectedServers t ⊆ Tools.connectedServers t'
          ∧ Tools.connectedServers t'
            = match remote with
              | Resolved result =>
                  if mcpApi st && all_success result
                  then match all_servers result with
                       | Some servers => list_to_set servers ∪ Tools.connectedServers t
                       | None => Tools.connectedServers t
                       end
                  else Tools.connectedServers t
              | Rejected _ => Tools.connectedServers t
              end
    end.
Proof.
  cbn zeta.
  assert (requests (connectToMcpServers remote st)
          = (if mcpApi st then requests st ++ [ConnectAll] else requests st)
          ∧ chatHistory (connectToMcpServers remote st) = chatHistory st) as [Hr Hc].
  { unfold connectToMcpServers.
    destruct (mcpApi st) eqn:Hapi; [|done]. destruct remote as [result|]; [|done].
    destruct (all_success result); [|done]. cbn [negb].
    destruct (mcpTools st) as [t|] eqn:Ht, (all_servers result) as [servers|];
      cbn; rewrite ?Ht; unfold from_option; try case_match; done. }
  split; [exact Hr|]. split; [exact Hc|].
  destruct (connectToMcpServers_registry remote st) as [-> _].
  destruct (mcpTools st) as [t|] eqn:Ht; [|by destruct remote].
  destruct remote as [result|]; [|by exists t].
  destruct (mcpApi st && all_success result); [|by exists t].
  destruct (all_servers result) as [servers|]; [|by exists t].
  eexists. split; [reflexivity|]. cbn.
  rewrite add_servers_union. repeat split. apply union_subseteq_r.
Qed.

(** Connecting to all servers sends one connect-all request when the API
    client is there and none otherwise, never touches the configuration or
    the transcript, never removes a server from the connected set, and on a
    success reply adds every server name the reply lists, whether or not
    the configuration knows or enables it. *)
Theorem connect_all_merges_reported_servers
    (remote : settled connect_all_result) (st : state) :
  let st' := connectToMcpServers remote st in
  requests st' = (if mcpApi st then requests st ++ [ConnectAll] else requests st)
  ∧ chatHistory st' = chatHistory st
  ∧ match mcpTools st with
    | None => mcpTools st' = None
    | Some t =>
        ∃ t', mcpTools st' = Some t'
          ∧ Tools.config t' = Tools.config t
          ∧ Tools.requests t' = Tools.requests t
          ∧ Tools.connectedServers t ⊆ Tools.connectedServers t'
          ∧ Tools.connectedServers t'
            = match remote with
              | Resolved result =>
                  if mcpApi st && all_success result
                  then match all_servers result with
                       | Some servers => list_to_set servers ∪ Tools.connectedServers t
                       | None => Tools.connectedServers t
                       end
                  else Tools.connectedServers t
              | Rejected _ => Tools.connectedServers t
              end
    end.
Proof. exact (connectToMcpServers_effect remote st). Qed.

End ConnectAllEffect.

(** ** Toggling, twice and in sequence *)

Section TogglingMore.
Import JS Tools.

Lemma lookup_assign_ne (k k' : string) (x : json) (props : list (string * json)) :
  k ≠ k' → lookup_prop k' (assign k x props) = lookup_prop k' props.
Proof.
  intros Hne. induction props as [|[k0 v] rest IH]; simpl.
  - by apply String.eqb_neq in Hne as ->.
  - destruct (String.eqb_spec k0 k) as [->|Hk]; simpl.
    + by apply String.eqb_neq in Hne as ->.
    + by rewrite IH.
Qed.

(** With a configuration that passed validation in place, the guard of
    [toggleServerConnection] never raises: the call always returns. *)
Theorem validated_config_never_throws
    (cfg : json) (st : state) (serverName : string) (connect : bool)
    (remote : settled connect_result) :
  validateConfig cfg = true →
  config st = Some cfg →
  ∃ st', toggleServerConnection serverName connect remote st = Done st'.
Proof.
  intros Hv Hc. unfold toggleServerConnection.
  destruct (hasApiAccess st); cbn [negb]; [|by eexists].
  assert (serverEntry st serverName ≠ TypeError) as Hentry.
  { unfold serverEntry. rewrite Hc. unfold validateConfig in Hv.
    destruct (truthy cfg); cbn [negb orb] in *; [|done].
    destruct (getProp cfg "mcpServers") as [servers|]; [|done].
    cbn [truthy_opt from_option] in Hv.
    destruct servers; try done;
      destruct (getProp _ serverName) as [e|]; try done; by destruct (truthy e). }
  destruct (serverEntry st serverName); [by eexists|done|].
  destruct connect; [|by eexists].
  destruct remote as [result|]; [|by eexists].
  destruct (connect_success result); by eexists.
Qed.

Lemma validated_config_never_throws_witness :
  let cfg := JObj [("mcpServers", JObj [("fs", JObj [])])] in
  ∃ st', toggleServerConnection "git" true (Rejected "offline")
           (loadConfigFromFile (Resolved cfg) (init true true (constructor false ∅))).2
         = Done st'.
Proof.
  intros cfg.
  apply (validated_config_never_throws cfg); reflexivity.
Defined.

(** Connecting a configured server and then disconnecting it costs one
    request and leaves the connected set without that server, and otherwise
    as it was. *)
Theorem connect_then_disconnect
    (serverName : string) (result : connect_result) (remote' : settled connect_result)
    (st : state) (cfg servers e : json) :
  hasApiAccess st = true →
  serverEntry st serverName = Entry cfg servers e →
  connect_success result = true →
  let st1 := final (toggleServerConnection serverName true (Resolved result) st) in
  let st2 := final (toggleServerConnection serverName false remote' st1) in
  serverName ∈ connectedServers st1
  ∧ connectedServers st2 = connectedServers st ∖ {[serverName]}
  ∧ requests st2 = requests st ++ [ConnectServer serverName]
  ∧ config st2 = config st.
Proof.
  intros Hapi Hentry Hok. cbn zeta.
  assert (final (toggleServerConnection serverName true (Resolved result) st)
          = rerender true
              (notify ("Connected to " +:+ serverName) "success"
                 (set_connected ({[serverName]} ∪ connectedServers st)
                    (send (ConnectServer serverName) st)))) as ->.
  { unfold toggleServerConnection. by rewrite Hapi, Hentry, Hok. }
  set (st1 := rerender _ _).
  assert (config st1 = config st) as Hc
    by (unfold st1; by rewrite config_rerender, config_notify).
  assert (connectedServers st1 = {[serverName]} ∪ connectedServers st) as Hcs
    by (unfold st1; by rewrite connected_rerender, connected_notify).
  destruct (disconnect_local serverName remote' st1 cfg servers e)
    as (E1 & E2 & E3 & _).
  { unfold st1. by rewrite hasApiAccess_rerender, hasApiAccess_notify. }
  { by rewrite (serverEntry_config st1 st _ Hc). }
  rewrite E1, E2, E3, Hcs, Hc. unfold st1.
  rewrite requests_rerender, requests_notify. cbn.
  repeat split; [set_solver|set_solver].
Qed.

Lemma connect_then_disconnect_witness :
  let cfg := JObj [("mcpServers", JObj [("fs", JObj [])])] in
  let st := State (Some cfg) {["git"]} true false None ∅ ∅ [] [] [] true in
  let st1 := final (toggleServerConnection "fs" true
                      (Resolved (ConnectResult true None)) st) in
  connectedServers (final (toggleServerConnection "fs" false (Rejected EmptyString) st1))
  = {["git"]} ∖ {["fs"]}.
Proof.
  intros cfg st st1.
  exact (proj1 (proj2 (connect_then_disconnect "fs" (ConnectResult true None)
                         (Rejected EmptyString) st cfg
                         (JObj [("fs", JObj [])]) (JObj [])
                         eq_refl eq_refl eq_refl))).
Defined.

End TogglingMore.

Section TogglingTwice.
Import JS Tools.

Lemma savedConfig_notify (m s : string) (st : state) :
  savedConfig (notify m s st) = savedConfig st.
Proof. unfold notify. by destruct (windowApp st). Qed.

Lemma toggleServerConnection_keeps_config serverName connect remote st :
  config (final (toggleServerConnection serverName connect remote st)) = config st
  ∧ savedConfig (final (toggleServerConnection serverName connect remote st))
    = savedConfig st
  ∧ toolsList (final (toggleServerConnection serverName connect remote st))
    = toolsList st.
Proof.
  assert (∀ c x, config (rerender c x) = config x
                 ∧ savedConfig (rerender c x) = savedConfig x
                 ∧ toolsList (rerender c x) = toolsList x) as Hre.
  { intros c x. by destruct (rerender_frame c x) as (_ & _ & _ & -> & -> & ->). }
  unfold toggleServerConnection.
  destruct (hasApiAccess st); cbn [negb final].
  2: by rewrite config_notify, savedConfig_notify, toolsList_notify.
  destruct (serverEntry st serverName); cbn [final]; try done.
  destruct connect; cbn [final].
  2: { match goal with |- context [rerender false ?x] =>
         destruct (Hre false x) as (-> & -> & ->) end.
       by rewrite config_notify, savedConfig_notify, toolsList_notify. }
  destruct remote as [result|]; cbn [final];
    [|by rewrite config_notify, savedConfig_notify, toolsList_notify].
  destruct (connect_success result); cbn [final];
    match goal with |- context [rerender true ?x] =>
      destruct (Hre true x) as (-> & -> & ->) end;
    by rewrite config_notify, savedConfig_notify, toolsList_notify.
Qed.

(** A toggle that finds the entry and can write its flag returns exactly
    when the list renders in the state it ends in. *)
Lemma toggleServerStatus_returns serverName st cfg servers e e' :
  serverEntry st serverName = Entry cfg servers e →
  set_disabled e (negb (truthy_opt (getProp e "disabled"))) = Some e' →
  toggleServerStatus serverName st = Done (final (toggleServerStatus serverName st))
  ↔ renderToolsList (final (toggleServerStatus serverName st)) = true.
Proof.
  intros Hentry Hset. unfold toggleServerStatus. rewrite Hentry, Hset.
  match goal with |- context [renderToolsList ?x] => set (st2 := x) end.
  destruct (renderToolsList st2) eqn:Hrender; cbn [final].
  - split; [intros _|done]. rewrite <- Hrender.
    apply renderToolsList_ext; [apply toolsList_notify|apply config_notify].
  - by rewrite Hrender.
Qed.

(** One toggle in a registry whose configuration, server table and server
    entry are plain objects, read property by property. *)
Lemma toggle_on_objects (serverName : string) (st : state)
    (cprops sprops eprops : list (string * json)) :
  config st = Some (JObj cprops) →
  lookup_prop "mcpServers" cprops = Some (JObj sprops) →
  lookup_prop serverName sprops = Some (JObj eprops) →
  let flag := negb (truthy_opt (lookup_prop "disabled" eprops)) in
  let eprops' := assign "disabled" (JBool flag) eprops in
  let sprops' := assign serverName (JObj eprops') sprops in
  let cprops' := assign "mcpServers" (JObj sprops') cprops in
  let st' := final (toggleServerStatus serverName st) in
  config st' = Some (JObj cprops')
  ∧ savedConfig st' = Some (jsonified (JObj cprops'))
  ∧ (toggleServerStatus serverName st = Done st' ↔ renderToolsList st' = true).
Proof.
  intros Hc Hs He. cbn zeta.
  assert (serverEntry st serverName
          = Entry (JObj cprops) (JObj sprops) (JObj eprops)) as Hentry
    by (by apply serverEntry_found).
  split; [|split; [|by eapply toggleServerStatus_returns]].
  all: unfold toggleServerStatus; rewrite Hentry;
    cbn [set_disabled getProp update_at];
    match goal with |- context [renderToolsList ?x] => set (st2 := x) end.
  all: assert (config st2
               = Some (JObj (assign "mcpServers"
                   (JObj (assign serverName
                      (JObj (assign "disabled"
                         (JBool (negb (truthy_opt (lookup_prop "disabled" eprops))))
                         eprops)) sprops)) cprops))
               ∧ savedConfig st2
                 = Some (jsonified (JObj (assign "mcpServers"
                     (JObj (assign serverName
                        (JObj (assign "disabled"
                           (JBool (negb (truthy_opt (lookup_prop "disabled" eprops))))
                           eprops)) sprops)) cprops)))) as [Hc2 Hs2].
  1, 3: unfold st2; destruct (_ && _);
    [match goal with
     | |- context [final (toggleServerConnection ?n false ?rm ?x)] =>
         destruct (toggleServerConnection_keeps_config n false rm x) as (-> & -> & _)
     end|]; by unfold saveConfig.
  all: destruct (renderToolsList st2); cbn [final];
    by rewrite ?config_notify, ?savedConfig_notify.
Qed.

Lemma toggle_flag_frame (serverName : string) (st : state)
    (cprops sprops eprops : list (string * json)) :
  config st = Some (JObj cprops) →
  lookup_prop "mcpServers" cprops = Some (JObj sprops) →
  lookup_prop serverName sprops = Some (JObj eprops) →
  let st' := final (toggleServerStatus serverName st) in
  ∃ cprops' sprops' eprops',
    config st' = Some (JObj cprops')
    ∧ savedConfig st' = jsonified <$> config st'
    ∧ lookup_prop "mcpServers" cprops' = Some (JObj sprops')
    ∧ lookup_prop serverName sprops' = Some (JObj eprops')
    ∧ lookup_prop "disabled" eprops'
      = Some (JBool (negb (truthy_opt (lookup_prop "disabled" eprops))))
    ∧ (∀ k, k ≠ "disabled" → lookup_prop k eprops' = lookup_prop k eprops)
    ∧ (∀ other, other ≠ serverName → lookup_prop other sprops' = lookup_prop other sprops)
    ∧ (∀ k, k ≠ "mcpServers" → lookup_prop k cprops' = lookup_prop k cprops)
    ∧ (toggleServerStatus serverName st = Done st' ↔ renderToolsList st' = true).
Proof.
  intros Hc Hs He.
  destruct (toggle_on_objects serverName st cprops sprops eprops Hc Hs He)
    as (Hc' & Hs' & Hdone).
  cbn zeta. eexists _, _, _. split; [exact Hc'|].
  split; [by rewrite Hs', Hc'|].
  rewrite !lookup_assign. repeat split; try done; try apply Hdone.
  all: intros k Hk; by apply lookup_assign_ne.
Qed.

(** Toggling the status of a server changes one thing in the
    configuration: the [disabled] property of that server's entry, which
    becomes the boolean opposite of what it counted as.  The other servers,
    the entry's other properties (its tools and resources) and the rest of
    the configuration read as before, and what is stored is the JSON text
    of the configuration in memory.  This is the state the call ends in; it
    returns exactly when the list of servers renders in that state, and
    throws otherwise. *)
Theorem toggle_changes_only_the_flag (serverName : string) (st : state)
    (cprops sprops eprops : list (string * json)) :
  config st = Some (JObj cprops) →
  lookup_prop "mcpServers" cprops = Some (JObj sprops) →
  lookup_prop serverName sprops = Some (JObj eprops) →
  let st' := final (toggleServerStatus serverName st) in
  ∃ cprops' sprops' eprops',
    config st' = Some (JObj cprops')
    ∧ savedConfig st' = jsonified <$> config st'
    ∧ lookup_prop "mcpServers" cprops' = Some (JObj sprops')
    ∧ lookup_prop serverName sprops' = Some (JObj eprops')
    ∧ lookup_prop "disabled" eprops'
      = Some (JBool (negb (truthy_opt (lookup_prop "disabled" eprops))))
    ∧ (∀ k, k ≠ "disabled" → lookup_prop k eprops' = lookup_prop k eprops)
    ∧ (∀ other, other ≠ serverName → lookup_prop other sprops' = lookup_prop other sprops)
    ∧ (∀ k, k ≠ "mcpServers" → lookup_prop k cprops' = lookup_prop k cprops)
    ∧ (toggleServerStatus serverName st = Done st' ↔ renderToolsList st' = true).
Proof. exact (toggle_flag_frame serverName st cprops sprops eprops). Qed.

(** A registry with the server [fs] and a sibling entry that is [null]: the
    flag of [fs] is set and stored, and the call throws. *)
Lemma toggle_changes_only_the_flag_witness :
  let eprops := [("tools", JArr [JStr "list_dir"] [])] in
  let st := State (Some (JObj [("mcpServers", JObj [("fs", JObj eprops); ("bad", JNull)])]))
                  ∅ true false None ∅ ∅ [] [] [] true in
  let st' := final (toggleServerStatus "fs" st) in
  toggleServerStatus "fs" st = Threw st'
  ∧ ∃ cprops' sprops' eprops',
      config st' = Some (JObj cprops')
      ∧ savedConfig st' = jsonified <$> config st'
      ∧ lookup_prop "mcpServers" cprops' = Some (JObj sprops')
      ∧ lookup_prop "fs" sprops' = Some (JObj eprops')
      ∧ lookup_prop "disabled" eprops' = Some (JBool true)
      ∧ (∀ k, k ≠ "disabled" → lookup_prop k eprops' = lookup_prop k eprops)
      ∧ (∀ other, other ≠ "fs" →
           lookup_prop other sprops'
           = lookup_prop other [("fs", JObj eprops); ("bad", JNull)])
      ∧ (∀ k, k ≠ "mcpServers" →
           lookup_prop k cprops'
           = lookup_prop k [("mcpServers", JObj [("fs", JObj eprops); ("bad", JNull)])])
      ∧ (toggleServerStatus "fs" st = Done st' ↔ renderToolsList st' = true).
Proof.
  intros eprops st st'. split; [reflexivity|].
  exact (toggle_changes_only_the_flag "fs" st _ _ eprops eq_refl eq_refl eq_refl).
Defined.



End TogglingTwice.

(** ** A configuration file chosen by the user *)

Section ConfigFile.
Import JS App.

(** A file that validates becomes the configuration, and the connect-all
    follows only when the load reported success, which it does when the
    list of servers rendered; a file that does not parse or validate
    triggers no connection attempt and leaves the registry's configuration
    and connected set alone. *)
Theorem config_file_connects_only_when_loaded
    (parsed : settled json) (remote : settled connect_all_result)
    (st : state) (t : Tools.state) :
  mcpTools st = Some t →
  let st' := handleConfigFile (Some parsed) remote st in
  ∃ t', mcpTools st' = Some t'
    ∧ match parsed with
      | Resolved cfg =>
          if Tools.validateConfig cfg then
            Tools.config t' = Some cfg
            ∧ requests st'
              = (if Tools.renderToolsList (Tools.set_config (Some cfg) t) && mcpApi st
                 then requests st ++ [ConnectAll] else requests st)
          else requests st' = requests st
               ∧ Tools.config t' = Tools.config t
               ∧ Tools.connectedServers t' = Tools.connectedServers t
      | Rejected _ =>
          requests st' = requests st
          ∧ Tools.config t' = Tools.config t
          ∧ Tools.connectedServers t' = Tools.connectedServers t
      end.
Proof.
  intros Ht. cbn zeta. unfold handleConfigFile. rewrite Ht.
  assert (∀ message,
            (Tools.load_failed message t).1 = false
            ∧ Tools.config (Tools.load_failed message t).2 = Tools.config t
            ∧ Tools.connectedServers (Tools.load_failed message t).2
              = Tools.connectedServers t) as Hfailed.
  { intros message. split; [done|].
    destruct (load_rejected message t) as [-> _].
    by destruct (load_failed_frame message t) as [_ ->]. }
  destruct parsed as [cfg|message].
  2: { cbn [Tools.loadConfigFromFile].
       destruct (Hfailed message) as (-> & Hc & Hcs). by eexists. }
  destruct (Tools.validateConfig cfg) eqn:Hv.
  2: { unfold Tools.loadConfigFromFile. rewrite Hv. cbn [negb].
       destruct (Hfailed "Invalid MCP configuration format") as (-> & Hc & Hcs).
       by eexists. }
  destruct (load_accepted cfg t Hv) as (Hc & _ & Hok).
  destruct (Tools.loadConfigFromFile (Resolved cfg) t) as [ok t1]. cbn [fst snd] in *.
  rewrite <- Hok. destruct ok; cbn [andb].
  - pose proof (connectToMcpServers_effect remote
                  (showNotification "MCP configuration loaded successfully!" "success"
                     (set_mcpTools (Some t1) st))) as (Hreq & _ & Htools).
    cbn [mcpTools showNotification set_mcpTools] in Htools.
    destruct Htools as (t' & Ht' & Hc' & _).
    exists t'. split; [exact Ht'|]. split; [by rewrite Hc'|exact Hreq].
  - by exists t1.
Qed.

(** A file that validates but does not render, because of its [null]
    entry: it has become the configuration, and no request is sent. *)
Lemma config_file_connects_only_when_loaded_witness :
  let cfg := JObj [("mcpServers", JObj [("fs", JObj []); ("bad", JNull)])] in
  let st := app (start (Page true true true true true) ∅ None true
                   (Some (Tools.constructor false ∅))) in
  ∃ t', mcpTools (handleConfigFile (Some (Resolved cfg)) (Rejected "offline") st)
        = Some t'
        ∧ Tools.config t' = Some cfg
        ∧ requests (handleConfigFile (Some (Resolved cfg)) (Rejected "offline") st) = [].
Proof.
  intros cfg st.
  exact (config_file_connects_only_when_loaded
           (Resolved cfg) (Rejected "offline") st
           (Tools.init true true (Tools.constructor false ∅)) eq_refl).
Defined.

(** Clearing the chat empties the transcript in memory and in storage, so
    that loading the stored history afterwards brings nothing back;
    declining the confirmation changes nothing. *)
Theorem cleared_chat_stays_cleared (nows : nat → string) (st : state) :
  is_Some (chatContainer st) →
  chatHistory (loadChatHistory nows (clearChat true st)) = []
  ∧ savedHistory (loadChatHistory nows (clearChat true st)) = Some []
  ∧ clearChat false st = st.
Proof.
  intros [rendered Hc]. unfold clearChat, loadChatHistory. rewrite Hc. done.
Qed.

Lemma cleared_chat_stays_cleared_witness :
  let st := app (react (start (Page true true true true true) ∅
                          (Some [Message "user" "hi" [] "t0"]) true None)
                   (HistoryLoaded (λ _, "t1"))) in
  chatHistory st = [Message "user" "hi" [] "t0"; Message "user" "hi" [] "t1"]
  ∧ chatHistory (loadChatHistory (λ _, "t2") (clearChat true st)) = [].
Proof.
  intros st. split; [reflexivity|].
  apply (cleared_chat_stays_cleared (λ _, "t2") st). by eexists.
Defined.

End ConfigFile.

(** ** What a tool execution can and cannot do *)

Section ExecutingMore.
Import JS Tools.

Variable JSON_parse : string → option json.

(** Executing a tool never changes the configuration or the connected
    set, and sends at most one request: a call of that tool on that server,
    and only when its panel and result container are in the page, API
    access is available and the server is in the connected set. *)
Theorem tool_called_only_on_connected_server
    (toolId serverName toolName : string) (remote : settled call_result) (st : state) :
  let st' := final (executeTool JSON_parse toolId serverName toolName remote st) in
  config st' = config st
  ∧ connectedServers st' = connectedServers st
  ∧ (requests st' = requests st
     ∨ ∃ inputs toolInterface,
         requests st' = requests st ++ [CallTool serverName toolName inputs]
         ∧ serverName ∈ connectedServers st
         ∧ hasApiAccess st = true
         ∧ document st !! toolId = Some toolInterface
         ∧ resultContainer toolInterface = true).
Proof.
  unfold executeTool.
  destruct (document st !! toolId) as [toolInterface|] eqn:Hdoc; [|by auto].
  destruct (resultContainer toolInterface) eqn:Hres; cbn [negb]; [|by auto].
  destruct (hasApiAccess st) eqn:Hapi; cbn [negb]; [|by auto].
  case_bool_decide as Hin; cbn [negb]; [|by auto].
  destruct (form toolInterface) as [inputElements|]; [|by auto].
  destruct (collect JSON_parse inputElements []) as [message|inputs]; [by auto|].
  destruct remote as [result|]; [destruct (call_success result)|];
    (split; [done|]; split; [done|]; right; by exists inputs, toolInterface).
Qed.

Lemma collect_keys (inputElements : list input_el) :
  ∀ (inputs inputs' : list (string * json)),
    collect JSON_parse inputElements inputs = inr inputs' →
    ∀ k, k ∈ inputs'.*1 →
      k ∈ inputs.*1
      ∨ (k ≠ EmptyString ∧ k ≠ "submit"
         ∧ ∃ input, input ∈ inputElements ∧ el_name input = k).
Proof.
  assert (∀ k x props k', k' ∈ (assign k x props).*1 → k' = k ∨ k' ∈ props.*1) as Hassign.
  { intros k x props k'. induction props as [|[k0 v] rest IH]; cbn.
    - intros ?%list_elem_of_singleton. by left.
    - destruct (String.eqb_spec k0 k) as [->|_]; cbn.
      + intros [->|?]%elem_of_cons; [by left|right; by right].
      + intros [->|H]%elem_of_cons; [right; by left|].
        destruct (IH H); [by left|right; by right]. }
  induction inputElements as [|input rest IH]; intros inputs inputs'; cbn [collect].
  - intros [= <-] k Hk. by left.
  - destruct (String.eqb_spec (el_name input) EmptyString) as [E|Hne]; cbn [orb].
    { intros H k Hk. destruct (IH _ _ H k Hk) as [?|(? & ? & i & ? & ?)]; [by left|].
      right. repeat split; try done. exists i. split; [by right|done]. }
    destruct (String.eqb_spec (el_name input) "submit") as [E|Hns].
    { intros H k Hk. destruct (IH _ _ H k Hk) as [?|(? & ? & i & ? & ?)]; [by left|].
      right. repeat split; try done. exists i. split; [by right|done]. }
    destruct (convert JSON_parse input) as [message|value]; [done|].
    intros H k Hk. destruct (IH _ _ H k Hk) as [Hin|(? & ? & i & ? & ?)].
    + destruct (Hassign _ _ _ _ Hin) as [->|?]; [|by left].
      right. repeat split; try done. exists input. split; [by left|done].
    + right. repeat split; try done. exists i. split; [by right|done].
Qed.

(** The arguments of a tool call are keyed by control names only: never by
    the empty name and never by [submit]. *)
Theorem tool_arguments_are_named_controls
    (inputElements : list input_el) (inputs : list (string * json)) (k : string) :
  collect JSON_parse inputElements [] = inr inputs →
  k ∈ inputs.*1 →
  k ≠ EmptyString ∧ k ≠ "submit"
  ∧ ∃ input, input ∈ inputElements ∧ el_name input = k.
Proof.
  intros H Hk. destruct (collect_keys _ _ _ H k Hk) as [?%elem_of_nil|?]; done.
Qed.

End ExecutingMore.

Section ExecutingMoreExamples.
Import JS Tools.

Lemma tool_arguments_are_named_controls_witness :
  "path" ≠ EmptyString ∧ "path" ≠ "submit"
  ∧ ∃ input, input ∈ [InputEl "submit" "Go" false None;
                       InputEl "path" "/tmp" false (Some "string")]
             ∧ el_name input = "path".
Proof.
  apply (tool_arguments_are_named_controls (λ _, None)
           [InputEl "submit" "Go" false None;
            InputEl "path" "/tmp" false (Some "string")]
           [("path", JStr "/tmp")] "path" eq_refl).
  cbn. by left.
Defined.

End ExecutingMoreExamples.

(** ** Opening a tool panel *)

Section Activation.
Import JS Tools.

(** The state an activation ends in. *)
Lemma activation_cases (toolsPanel : bool) (serverName : string)
    (remote : settled connect_result) (st : state) :
  ∃ st', (activateTool_guard toolsPanel serverName remote st = Proceeds st'
          ∧ toolsPanel = true ∧ (serverName ∈ connectedServers st'))
         ∨ ((activateTool_guard toolsPanel serverName remote st = Refused st'
             ∨ activateTool_guard toolsPanel serverName remote st = Raised st')
            ∧ connectedServers st' = connectedServers st).
Proof.
  unfold activateTool_guard.
  destruct toolsPanel; cbn [negb]; [|by exists st; right; auto].
  case_bool_decide as Hin; cbn [negb]; [by exists st; left|].
  destruct (disabledFlag st serverName) as [[|]|].
  - eexists. right. split; [by left|]. by rewrite connected_notify.
  - unfold toggleServerConnection.
    destruct (hasApiAccess st); cbn [negb].
    2: { rewrite connected_notify, bool_decide_eq_false_2 by done. cbn [negb].
         eexists. right. split; [by left|]. by rewrite !connected_notify. }
    destruct (serverEntry st serverName).
    + rewrite bool_decide_eq_false_2 by done. cbn [negb].
      eexists. right. split; [by left|]. by rewrite connected_notify.
    + eexists. right. split; [by right|done].
    + destruct remote as [result|error].
      * destruct (connect_success result).
        -- rewrite connected_rerender, connected_notify.
           cbn [connectedServers set_connected send].
           rewrite bool_decide_eq_true_2 by set_solver. cbn [negb].
           eexists. left. split; [done|]. split; [done|].
           rewrite connected_rerender, connected_notify. cbn. set_solver.
        -- rewrite connected_rerender, connected_notify. cbn [connectedServers send].
           rewrite bool_decide_eq_false_2 by done. cbn [negb].
           eexists. right. split; [by left|].
           by rewrite connected_notify, connected_rerender, connected_notify.
      * rewrite connected_notify. cbn [connectedServers send].
        rewrite bool_decide_eq_false_2 by done. cbn [negb].
        eexists. right. split; [by left|]. by rewrite !connected_notify.
  - exists st. right. split; [by right|done].
Qed.

(** A tool panel is only ever opened for a server that is in the connected
    set when the panel is built, on a page that has a tools panel. *)
Theorem activation_requires_connection (toolsPanel : bool) (serverName : string)
    (remote : settled connect_result) (st st' : state) :
  activateTool_guard toolsPanel serverName remote st = Proceeds st' →
  toolsPanel = true ∧ serverName ∈ connectedServers st'.
Proof.
  intros H.
  destruct (activation_cases toolsPanel serverName remote st)
    as (st1 & [(E & Hp & Hin)|([E|E] & _)]); rewrite E in H; try done.
  by injection H as <-.
Qed.

Lemma activation_requires_connection_witness :
  let cfg := JObj [("mcpServers", JObj [("fs", JObj [])])] in
  let st := State (Some cfg) ∅ true false None ∅ ∅ [] [] [] true in
  let st' := set_connected {["fs"]} (send (ConnectServer "fs") st) in
  "fs" ∈ connectedServers st'.
Proof.
  intros cfg st st'.
  apply (activation_requires_connection true "fs"
           (Resolved (ConnectResult true None)) st st').
  vm_compute. reflexivity.
Defined.

Lemma connect_requests serverName remote st :
  requests (final (toggleServerConnection serverName true remote st)) = requests st
  ∨ (requests (final (toggleServerConnection serverName true remote st))
     = requests st ++ [ConnectServer serverName]
     ∧ hasApiAccess st = true).
Proof.
  unfold toggleServerConnection.
  destruct (hasApiAccess st); cbn [negb final]; [|left; by rewrite requests_notify].
  destruct (serverEntry st serverName); cbn [final]; try by left.
  right. split; [|done].
  destruct remote as [result|]; [destruct (connect_success result)|];
    cbn [final]; by rewrite ?requests_rerender, requests_notify.
Qed.

(** Opening a panel sends at most one request, a connect for that server,
    and only when API access is there and the server is not yet connected
    and not disabled; a disabled server that is not connected is refused;
    and whenever the opening is refused or throws, the connected set is as
    it was. *)
Theorem activation_connects_at_most_once (toolsPanel : bool) (serverName : string)
    (remote : settled connect_result) (st : state) :
  let st' := match activateTool_guard toolsPanel serverName remote st with
             | Proceeds s | Refused s | Raised s => s
             end in
  (requests st' = requests st
   ∨ (requests st' = requests st ++ [ConnectServer serverName]
      ∧ (serverName ∉ connectedServers st)
      ∧ disabledFlag st serverName ≠ Some true
      ∧ hasApiAccess st = true))
  ∧ (disabledFlag st serverName = Some true → serverName ∉ connectedServers st →
     toolsPanel = true →
     ∃ s, activateTool_guard toolsPanel serverName remote st = Refused s)
  ∧ (∀ s, activateTool_guard toolsPanel serverName remote st = Refused s
          ∨ activateTool_guard toolsPanel serverName remote st = Raised s →
          connectedServers s = connectedServers st).
Proof.
  cbn zeta. split; [|split].
  - unfold activateTool_guard.
    destruct toolsPanel; cbn [negb]; [|by left].
    case_bool_decide as Hin; cbn [negb]; [by left|].
    destruct (disabledFlag st serverName) as [[|]|] eqn:Hd; [| |by left].
    { rewrite requests_notify. by left. }
    pose proof (connect_requests serverName remote st) as Hreq.
    destruct (toggleServerConnection serverName true remote st) as [st1|st1];
      cbn [final] in Hreq.
    + destruct (negb _); rewrite ?requests_notify;
        (destruct Hreq as [->|[-> Hapi]]; [by left|by right]).
    + destruct Hreq as [->|[-> Hapi]]; [by left|by right].
  - intros Hd Hin ->. unfold activateTool_guard. cbn [negb].
    rewrite bool_decide_eq_false_2 by done. cbn [negb]. rewrite Hd. by eexists.
  - intros s Hs.
    destruct (activation_cases toolsPanel serverName remote st)
      as (st1 & [(E & _)|([E|E] & Hcs)]); destruct Hs as [Hs|Hs];
      rewrite E in Hs; try done; by injection Hs as <-.
Qed.

Lemma activation_connects_at_most_once_witness :
  let cfg := JObj [("mcpServers", JObj [("fs", JObj [("disabled", JBool true)])])] in
  let st := State (Some cfg) ∅ true false None ∅ ∅ [] [] [] true in
  ∃ s, activateTool_guard true "fs" (Resolved (ConnectResult true None)) st = Refused s.
Proof.
  intros cfg st.
  apply (proj1 (proj2 (activation_connects_at_most_once true "fs"
                         (Resolved (ConnectResult true None)) st))); try reflexivity.
  apply not_elem_of_empty.
Defined.

End Activation.

(** ** The backend client *)

Section BackendClient.
Import JS Api.

(** A request returns data exactly when the fetch resolved, the body
    parsed as JSON and the status was a success, and then it returns that
    body; a body that does not parse fails the request with the parse
    error whatever the status, and a failure status with a JSON body that
    has a non-empty string [error] fails with that string. *)
Theorem request_returns_iff (fetched : settled response) :
  (∀ data, request fetched = Returned data
           ↔ ∃ r, fetched = Resolved r ∧ ok r = true ∧ body r = Resolved data)
  ∧ (∀ r m, fetched = Resolved r → body r = Rejected m →
            request fetched = Failed (Error (Text m)))
  ∧ (∀ r props s, fetched = Resolved r → ok r = false →
       body r = Resolved (JObj props) → lookup_prop "error" props = Some (JStr s) →
       s ≠ EmptyString → request fetched = Failed (Error (Text s))).
Proof.
  split; [|split].
  - intros data. unfold request. destruct fetched as [r|m].
    2: { split; [done|]. by intros (r & [=] & _). }
    destruct (body r) as [d|m] eqn:Hb.
    2: { split; [done|]. intros (r' & [= <-] & _ & H). congruence. }
    destruct (ok r) eqn:Hok; cbn [negb].
    + split.
      * intros [= <-]. by exists r.
      * intros (r' & [= <-] & _ & H). congruence.
    + split.
      * destruct d; try done; destruct (getProp _ "error") as [v|]; try done;
          by destruct (truthy v).
      * intros (r' & [= <-] & H & _). congruence.
  - intros r m -> Hb. unfold request. by rewrite Hb.
  - intros r props s -> Hok Hb He Hs. unfold request. rewrite Hb, Hok.
    cbn [negb getProp]. rewrite He. by destruct s.
Qed.

(** Once a list of models has been returned for a provider, asking again
    returns the same list from the cache, also when it is empty, without a
    request and whatever the backend would answer now. *)
Theorem models_are_fetched_once
    (providerId : string) (fetched fetched' : settled response)
    (st st1 : state) (models : json) :
  getModels providerId fetched st = (Returned models, st1) →
  getModels providerId fetched' st1 = (Returned models, st1).
Proof.
  assert (∀ data v, field_or_empty data "models" = Some v → truthy v = true) as Htruthy.
  { intros data v. unfold field_or_empty.
    destruct data; try done; destruct (getProp _ "models") as [x|];
      intros [= <-]; try done; by destruct (truthy x) eqn:E. }
  unfold getModels at 1.
  destruct (modelsCache st !! providerId) as [cached|] eqn:Hc.
  - destruct (truthy cached) eqn:Ht.
    + intros [= <- <-]. unfold getModels. by rewrite Hc, Ht.
    + destruct (request fetched) as [data|]; [|done].
      destruct (field_or_empty data "models") as [v|] eqn:Hf; [|done].
      intros [= <- <-]. unfold getModels. cbn [modelsCache].
      by rewrite lookup_insert_eq, (Htruthy _ _ Hf).
  - destruct (request fetched) as [data|]; [|done].
    destruct (field_or_empty data "models") as [v|] eqn:Hf; [|done].
    intros [= <- <-]. unfold getModels. cbn [modelsCache].
    by rewrite lookup_insert_eq, (Htruthy _ _ Hf).
Qed.

Lemma models_are_fetched_once_witness :
  let reply := Resolved (Response true 200 "OK" (Resolved (JObj []))) in
  let st1 := State ∅ {["openai" := JArr [] []]} NoItem [GetModels "openai" EmptyString] in
  getModels "openai" (Rejected "offline") st1 = (Returned (JArr [] []), st1).
Proof.
  intros reply st1.
  apply (models_are_fetched_once "openai" reply (Rejected "offline")
           (constructor NoItem) st1 (JArr [] [])).
  vm_compute. reflexivity.
Defined.




End BackendClient.

(** ** Provider keys and cached models *)

Section ProviderCache.
Import JS Providers.








(** A formatted error message is never empty, and an error that mentions
    none of the known status codes or causes is shown as it is. *)
Theorem formatted_error_never_empty (error provider : string) :
  formatErrorMessage error provider ≠ EmptyString
  ∧ (error ≠ EmptyString →
     (∀ token, token ∈ ["401"; "authentication"; "429"; "rate limit"; "quota";
                        "500"; "502"; "503"; "504"] →
               contains token error = false) →
     formatErrorMessage error provider = error).
Proof.
  unfold formatErrorMessage. split.
  - destruct (String.eqb_spec error EmptyString) as [->|Hne]; [done|].
    destruct (_ || _); [done|]. destruct (_ || _); [done|].
    destruct (_ || _); [by destruct provider|done].
  - intros Hne Hnone. apply String.eqb_neq in Hne as ->.
    rewrite !Hnone; [done|..]; set_solver.
Qed.

Lemma formatted_error_never_empty_witness :
  formatErrorMessage "connection reset" "OpenAI" = "connection reset".
Proof.
  apply (proj2 (formatted_error_never_empty "connection reset" "OpenAI")); [done|].
  intros token Hin.
  repeat (apply elem_of_cons in Hin as [->|Hin]; [reflexivity|]).
  by apply elem_of_nil in Hin.
Defined.

End ProviderCache.
